(** * Render-and-download backend (src/index.js)

    A shallow embedding of the Express handler of [/api/render-and-download]
    and of its helper [runRemotionRender], with the properties of the job
    life cycle: validation, artifact naming, subprocess invocation, outcome
    classification, delivery and cleanup.

    Strings are byte strings; the JavaScript primitives the handler relies on
    (template literals, [!x], [JSON.stringify], [String.prototype.includes],
    [toLowerCase], [path.join], [path.resolve], [child_process.exec],
    [res.download], [fs.unlink]) are modelled after their documented
    behaviour on POSIX.

    One request is a computation over a world made of the files on disk, the
    response object and the trace of the effects performed.  What the
    environment decides (the token, the clock, what the shell does, how the
    transfer goes, whether unlink is refused) is an input of the run.

    [res.download] and [fs.unlink] are asynchronous: the handler starts them
    and goes on, and they complete, and call back, once the synchronous code
    has ended.  The handler therefore returns the operations it has started,
    and a run completes them in order; an exception raised in a callback is
    not caught by the handler.  The world at the end of the run is the world
    once the request has fully completed. *)

From Stdlib Require Import ZArith Ascii.
From stdpp Require Import base decidable option list strings pretty gmap.

Local Open Scope Z_scope.

(** ** JavaScript strings *)

Module Str.

(** The double quote character, code 34. *)
Definition dquote : string := String "034"%char EmptyString.
(** The backslash, code 92, the line feed, code 10, the single quote, 39. *)
Definition backslash : string := String "092"%char EmptyString.
Definition newline : string := String "010"%char EmptyString.
Definition squote : string := String "039"%char EmptyString.

(** [c.toLowerCase()] on one code unit.  Only A-Z are mapped; outside ASCII
    the Unicode mapping never produces one of the letters of the marker
    word, so the containment test below is not affected. *)
Definition lower_char (c : ascii) : ascii :=
  let n := nat_of_ascii c in
  if (Nat.leb 65 n && Nat.leb n 90)%bool then ascii_of_nat (n + 32) else c.

Fixpoint toLowerCase (s : string) : string :=
  match s with
  | EmptyString => EmptyString
  | String c r => String (lower_char c) (toLowerCase r)
  end.

(** [s.startsWith(p)] *)
Fixpoint startsWith (s p : string) : bool :=
  match p, s with
  | EmptyString, _ => true
  | String _ _, EmptyString => false
  | String a p', String b s' => if decide (a = b) then startsWith s' p' else false
  end.

(** [s.includes(p)] *)
Fixpoint includes (s p : string) : bool :=
  if startsWith s p then true
  else match s with
       | EmptyString => false
       | String _ r => includes r p
       end.

(** [s.replace(/c/g, by)] for a one-character pattern. *)
Fixpoint replaceAll (c : ascii) (by_ : string) (s : string) : string :=
  match s with
  | EmptyString => EmptyString
  | String a r =>
      if decide (a = c) then by_ +:+ replaceAll c by_ r
      else String a (replaceAll c by_ r)
  end.

(** [s.split(c)] *)
Fixpoint split (c : ascii) (s : string) : list string :=
  match s with
  | EmptyString => [EmptyString]
  | String a r =>
      if decide (a = c) then EmptyString :: split c r
      else match split c r with
           | h :: t => String a h :: t
           | [] => [String a EmptyString]
           end
  end.

(** [l.join(sep)] *)
Fixpoint join (sep : string) (l : list string) : string :=
  match l with
  | [] => EmptyString
  | [x] => x
  | x :: r => x +:+ sep +:+ join sep r
  end.

(** The NUL character, code 0. *)
Definition nul : string := String "000"%char EmptyString.

(** The length in bytes. *)
Fixpoint byteLengthFrom (acc : N) (s : string) : N :=
  match s with
  | EmptyString => acc
  | String _ r => byteLengthFrom (N.succ acc) r
  end.

Definition byteLength (s : string) : N := byteLengthFrom 0 s.

(** [s.slice(0, n)] *)
Fixpoint sliceTo (n : N) (s : string) : string :=
  match s with
  | EmptyString => EmptyString
  | String c r => if N.eqb n 0 then EmptyString else String c (sliceTo (N.pred n) r)
  end.

(** [s.charCodeAt(s.length - 1) === c] *)
Fixpoint endsWithChar (c : ascii) (s : string) : bool :=
  match s with
  | EmptyString => false
  | String a EmptyString => bool_decide (a = c)
  | String _ r => endsWithChar c r
  end.

End Str.

(** ** Node's [path] module, POSIX flavour *)

Module Path.

(** The separator. *)
Abbreviation sep := ("/"%char) (only parsing).

Definition isAbsolute (p : string) : bool :=
  match p with
  | String c _ => bool_decide (c = sep)
  | EmptyString => false
  end.

(** One step of [normalizeString]: the segments kept so far are a stack,
    most recent first. *)
Definition normalizeStep (allowAboveRoot : bool) (stack : list string) (seg : string)
  : list string :=
  if decide (seg = EmptyString) then stack
  else if decide (seg = ".") then stack
  else if decide (seg = "..") then
    match stack with
    | top :: rest =>
        if decide (top = "..") then
          (if allowAboveRoot then seg :: stack else stack)
        else rest
    | [] => if allowAboveRoot then [seg] else []
    end
  else seg :: stack.

Definition normalizeSegments (allowAboveRoot : bool) (segs : list string) : list string :=
  rev (fold_left (normalizeStep allowAboveRoot) segs []).

Definition normalizeString (p : string) (allowAboveRoot : bool) : string :=
  Str.join "/" (normalizeSegments allowAboveRoot (Str.split sep p)).

(** [path.normalize] *)
Definition normalize (p : string) : string :=
  if decide (p = EmptyString) then "."
  else
    let isAbs := isAbsolute p in
    let trailingSeparator := Str.endsWithChar sep p in
    let q := normalizeString p (negb isAbs) in
    if decide (q = EmptyString) then
      (if isAbs then "/" else if trailingSeparator then "./" else ".")
    else
      let q' := if trailingSeparator then q +:+ "/" else q in
      if isAbs then "/" +:+ q' else q'.

(** [path.join(...args)] *)
Definition joinArgs (args : list string) : option string :=
  fold_left (fun joined arg =>
               if decide (arg = EmptyString) then joined
               else match joined with
                    | None => Some arg
                    | Some j => Some (j +:+ "/" +:+ arg)
                    end) args None.

Definition join (args : list string) : string :=
  match joinArgs args with
  | None => "."
  | Some joined => normalize joined
  end.

(** The right-to-left loop of [path.resolve]; [cwd] is [process.cwd()],
    consulted only when no argument is absolute. *)
Fixpoint resolveLoop (cwd : string) (pending : list string) (resolvedPath : string)
  : string * bool :=
  match pending with
  | [] =>
      if decide (cwd = EmptyString) then (resolvedPath, false)
      else (cwd +:+ "/" +:+ resolvedPath, isAbsolute cwd)
  | p :: rest =>
      if decide (p = EmptyString) then resolveLoop cwd rest resolvedPath
      else
        let resolvedPath' := p +:+ "/" +:+ resolvedPath in
        if isAbsolute p then (resolvedPath', true)
        else resolveLoop cwd rest resolvedPath'
  end.

(** [path.resolve(...args)] *)
Definition resolve (cwd : string) (args : list string) : string :=
  let '(resolvedPath, resolvedAbsolute) := resolveLoop cwd (rev args) EmptyString in
  let q := normalizeString resolvedPath (negb resolvedAbsolute) in
  if resolvedAbsolute then "/" +:+ q
  else if decide (q = EmptyString) then "." else q.

(** [path.basename(p)]: the last segment, trailing separators apart. *)
Definition basename (p : string) : string :=
  default EmptyString
    (last (filter (fun seg => seg <> EmptyString) (Str.split sep p))).

(** A segment is free of the separator when splitting leaves it whole. *)
Definition whole (c : ascii) (seg : string) : Prop := Str.split c seg = [seg].

(** A segment that normalisation keeps as it is. *)
Definition cleanSegment (seg : string) : bool :=
  negb (bool_decide (seg = EmptyString)) && negb (bool_decide (seg = "."))
  && negb (bool_decide (seg = "..")).

(** A relative path none of whose segments is empty, [.] or [..]. *)
Definition plainName (p : string) : bool := forallb cleanSegment (Str.split sep p).

(** Whether the segments never climb, through [..], above the level they
    start from; [depth] is the number of segments that may still be undone. *)
Fixpoint staysInside (depth : nat) (segs : list string) : bool :=
  match segs with
  | [] => true
  | seg :: rest =>
      if decide (seg = EmptyString) then staysInside depth rest
      else if decide (seg = ".") then staysInside depth rest
      else if decide (seg = "..") then
        match depth with
        | O => false
        | S d => staysInside d rest
        end
      else staysInside (S depth) rest
  end.

(** A relative path whose first segment is kept by normalisation: it is a
    real segment and no [..] after it undoes it. *)
Definition keepsHead (p : string) : bool :=
  match Str.split sep p with
  | h :: rest => cleanSegment h && staysInside 0 rest
  | [] => false
  end.

End Path.

(** ** The tokens of [uuid.v4] *)

Module Uuid.

Definition isHex (c : ascii) : bool :=
  let n := nat_of_ascii c in
  (Nat.leb 48 n && Nat.leb n 57) || (Nat.leb 97 n && Nat.leb n 102).

Definition isDash (c : ascii) : bool := bool_decide (c = "-"%char).

Definition isVersion4 (c : ascii) : bool := bool_decide (c = "4"%char).

Definition isVariant (c : ascii) : bool :=
  bool_decide (c = "8"%char) || bool_decide (c = "9"%char)
  || bool_decide (c = "a"%char) || bool_decide (c = "b"%char).

(** xxxxxxxx-xxxx-4xxx-yxxx-xxxxxxxxxxxx *)
Definition shape : list (ascii -> bool) :=
  replicate 8 isHex ++ [isDash] ++ replicate 4 isHex ++ [isDash]
  ++ [isVersion4] ++ replicate 3 isHex ++ [isDash]
  ++ [isVariant] ++ replicate 3 isHex ++ [isDash] ++ replicate 12 isHex.

Fixpoint hasShape (sh : list (ascii -> bool)) (s : string) : bool :=
  match sh, s with
  | [], EmptyString => true
  | f :: sh', String c s' => f c && hasShape sh' s'
  | _, _ => false
  end.

(** The strings [uuidv4()] can return. *)
Definition isUuid (s : string) : bool := hasShape shape s.

End Uuid.

(** ** JavaScript values received in the request body *)

Module JS.

(** A parsed JSON value.  A number is given by the text that JavaScript
    prints for it ([0] for zero of either sign, [1.5], [1e+21]), which is
    all that the code observes of it; the fields of an object are its own
    properties, in enumeration order. *)
#[local] Unset Elimination Schemes.
Inductive json : Type :=
| JNull
| JBool (b : bool)
| JNum (text : string)
| JStr (s : string)
| JArr (items : list json)
| JObj (fields : list (string * json)).
#[local] Set Elimination Schemes.

(** A destructured property: [None] is [undefined]. *)
Definition value : Type := option json.

(** ToBoolean, as applied by [!x] and [x || y]. *)
Definition truthy (v : value) : bool :=
  match v with
  | None => false
  | Some JNull => false
  | Some (JBool b) => b
  | Some (JNum text) => negb (bool_decide (text = "0"))
  | Some (JStr s) => negb (bool_decide (s = EmptyString))
  | Some (JArr _) => true
  | Some (JObj _) => true
  end.

(** [v || d] *)
Definition orElse (v : value) (d : json) : json :=
  match v with
  | Some j => if truthy v then j else d
  | None => d
  end.

(** Whether an object has an own property of that name. *)
Definition hasOwn (key : string) (fields : list (string * json)) : bool :=
  existsb (fun kv => bool_decide (fst kv = key)) fields.

(** ToString of a JSON value, as applied by a template literal; [None] is
    the TypeError raised when an object cannot be converted.  An object is
    printed by [Object.prototype.toString] unless it has an own property
    [toString], which no JSON value makes callable: the conversion then
    fails.  An array joins the conversions of its elements, with nothing for
    [null]. *)
Fixpoint toStringJson (j : json) : option string :=
  match j with
  | JNull => Some "null"
  | JBool true => Some "true"
  | JBool false => Some "false"
  | JNum text => Some text
  | JStr s => Some s
  | JArr items =>
      Str.join "," <$>
        (fix elements (l : list json) : option (list string) :=
           match l with
           | [] => Some []
           | x :: r =>
               match (match x with JNull => Some EmptyString | _ => toStringJson x end),
                     elements r with
               | Some a, Some b => Some (a :: b)
               | _, _ => None
               end
           end) items
  | JObj fields => if hasOwn "toString" fields then None else Some "[object Object]"
  end.

Definition toString (v : value) : option string :=
  match v with
  | None => Some "undefined"
  | Some j => toStringJson j
  end.

Definition hexDigit (n : nat) : ascii :=
  nth n (String.list_ascii_of_string "0123456789abcdef") "0"%char.

(** The escape of one code unit inside a JSON string literal. *)
Definition escapeChar (c : ascii) : string :=
  let n := nat_of_ascii c in
  if Nat.eqb n 34 then Str.backslash +:+ Str.dquote
  else if Nat.eqb n 92 then Str.backslash +:+ Str.backslash
  else if Nat.eqb n 8 then Str.backslash +:+ "b"
  else if Nat.eqb n 12 then Str.backslash +:+ "f"
  else if Nat.eqb n 10 then Str.backslash +:+ "n"
  else if Nat.eqb n 13 then Str.backslash +:+ "r"
  else if Nat.eqb n 9 then Str.backslash +:+ "t"
  else if Nat.ltb n 32 then
    Str.backslash +:+ "u00" +:+
      String (hexDigit (Nat.div n 16)) (String (hexDigit (Nat.modulo n 16)) EmptyString)
  else String c EmptyString.

Fixpoint escapeString (s : string) : string :=
  match s with
  | EmptyString => EmptyString
  | String c r => escapeChar c +:+ escapeString r
  end.

Definition quote (s : string) : string :=
  Str.dquote +:+ escapeString s +:+ Str.dquote.

(** [JSON.stringify(j)] *)
Fixpoint JSON_stringify (j : json) : string :=
  match j with
  | JNull => "null"
  | JBool true => "true"
  | JBool false => "false"
  | JNum text => text
  | JStr s => quote s
  | JArr items => "[" +:+ Str.join "," (map JSON_stringify items) +:+ "]"
  | JObj fields =>
      "{" +:+
      Str.join "," (map (fun kv => quote (fst kv) +:+ ":" +:+ JSON_stringify (snd kv)) fields)
      +:+ "}"
  end.

End JS.

(** ** How a POSIX shell reads a quoted word *)

Module Sh.

(** The text a shell gets from a word made of single-quoted parts and of
    backslash escapes outside them: between single quotes every character
    stands for itself, outside them a backslash makes the next character
    stand for itself.  A word with any other unquoted character, or with a
    quote left open, is not read ([None]). *)
Fixpoint readWord (inQuote : bool) (s : string) : option string :=
  match s with
  | EmptyString => if inQuote then None else Some EmptyString
  | String c r =>
      if inQuote then
        if decide (c = "039"%char) then readWord false r
        else String c <$> readWord true r
      else if decide (c = "039"%char) then readWord true r
      else if decide (c = "092"%char) then
        match r with
        | String d r' => String d <$> readWord false r'
        | EmptyString => None
        end
      else None
  end.

(** The word [s] written between single quotes. *)
Definition singleQuoted (s : string) : string := Str.squote +:+ s +:+ Str.squote.

End Sh.

(** ** The world of one request: file system, response object, event trace *)

Inductive Level : Type := LLog | LWarn | LError.

(** An argument of a [console] call after the message. *)
Inductive ConsoleArg : Type :=
| AStr (s : string)
| AValue (v : JS.value)
| ASysError (code : string).

(** What has been written to the response object [res]; a file is offered
    to the caller under [name]. *)
Inductive Reply : Type :=
| JsonReply (status : Z) (body : JS.json)
| FileReply (path name : string) (complete : bool).

Inductive Event : Type :=
| EvConsole (lvl : Level) (text : string) (args : list ConsoleArg)
| EvUuid (token : string)
| EvNow (t : Z)
| EvExec (command cwd : string)
| EvExistsSync (path : string) (found : bool)
| EvUnlink (path : string) (err : option string)
| EvDownload (path name : string) (err : option string)
| EvJson (status : Z) (body : JS.json).

Record World : Type := mkWorld {
  fs : gset string;          (* the files that exist *)
  headersSent : bool;        (* res.headersSent *)
  reply : option Reply;      (* what the caller receives *)
  trace : list Event         (* effects so far, oldest first *)
}.

Definition emit (e : Event) (w : World) : World :=
  mkWorld (fs w) (headersSent w) (reply w) (trace w ++ [e]).

Definition setFs (f : gset string) (w : World) : World :=
  mkWorld f (headersSent w) (reply w) (trace w).

Definition setReply (h : bool) (r : option Reply) (w : World) : World :=
  mkWorld (fs w) h r (trace w).

(** The state of the world when a request arrives: nothing sent yet. *)
Definition fresh (files : gset string) : World := mkWorld files false None [].

Inductive Channel : Type := Stdout | Stderr.

(** What the rendering subprocess has done when it ends: the status it
    ended with, what it wrote on each channel, and, for a process that wrote
    too much on both, the channel whose buffer filled first. *)
Record ProcResult : Type := mkProc {
  exitCode : Z;
  stdout : string;
  stderr : string;
  firstFull : Channel
}.

(** The default [maxBuffer] of [child_process.exec], in bytes. *)
Definition maxBuffer : N := 1024 * 1024.

(** The channel, if any, on which [exec] has received more than [maxBuffer]
    bytes. *)
Definition overflow (r : ProcResult) : option Channel :=
  let out := N.ltb maxBuffer (Str.byteLength (stdout r)) in
  let err := N.ltb maxBuffer (Str.byteLength (stderr r)) in
  if out && err then Some (firstFull r)
  else if out then Some Stdout
  else if err then Some Stderr
  else None.

Definition channelName (c : Channel) : string :=
  match c with
  | Stdout => "stdout"
  | Stderr => "stderr"
  end.

(** How the transfer of the file goes once it has been opened. *)
Inductive Transport : Type :=
| Delivered
| Broken (headersAlreadySent : bool) (code : string).

(** Everything one request draws from its environment. *)
Record Env : Type := mkEnv {
  uuid : string;                       (* the result of uuidv4() *)
  clock : Z;                           (* the result of Date.now() *)
  shell : string -> string -> gset string -> ProcResult * gset string;
                                       (* the shell run on a command in a directory *)
  transport : Transport;               (* the fate of res.download *)
  unlinkDenied : option string;        (* the error, if any, that unlink of an existing file gets *)
  inspect : string -> string           (* util.inspect of a string, as error messages show it *)
}.

(** A JavaScript exception: an [Error] with the properties the code reads. *)
Record JsError : Type := mkError {
  message : string;
  err_stdout : option string;
  err_stderr : option string
}.

(** ** The monad of handler code: state and exceptions *)

Inductive Outcome (A : Type) : Type :=
| Returned (a : A)
| Thrown (e : JsError).
Arguments Returned {A} a.
Arguments Thrown {A} e.

Definition M (A : Type) : Type := World -> Outcome A * World.

Definition ret {A} (a : A) : M A := fun w => (Returned a, w).

Definition bind {A B} (m : M A) (k : A -> M B) : M B :=
  fun w => match m w with
           | (Returned a, w') => k a w'
           | (Thrown e, w') => (Thrown e, w')
           end.

Definition throw {A} (e : JsError) : M A := fun w => (Thrown e, w).

Definition tryCatch {A} (body : M A) (handler : JsError -> M A) : M A :=
  fun w => match body w with
           | (Returned a, w') => (Returned a, w')
           | (Thrown e, w') => handler e w'
           end.

Declare Scope js_scope.
Delimit Scope js_scope with js.
Notation "x <- c1 ;; c2" := (bind c1 (fun x => c2))
  (at level 100, c1 at next level, right associativity) : js_scope.
Notation "c1 ;; c2" := (bind c1 (fun _ => c2))
  (at level 100, right associativity) : js_scope.
Notation "'when' b 'then' c" := (if b then c else ret tt)
  (at level 100, b at level 99, right associativity) : js_scope.

(** *** Primitives *)

Definition console (lvl : Level) (text : string) (args : list ConsoleArg) : M unit :=
  fun w => (Returned tt, emit (EvConsole lvl text args) w).

Definition optArg (o : option string) : string := default "undefined" o.

Definition uuidv4 (env : Env) : M string :=
  fun w => (Returned (uuid env), emit (EvUuid (uuid env)) w).

Definition Date_now (env : Env) : M Z :=
  fun w => (Returned (clock env), emit (EvNow (clock env)) w).

(** The conversion of a value inside a template literal. *)
Definition template (v : JS.value) : M string :=
  fun w =>
    match JS.toString v with
    | Some text => (Returned text, w)
    | None => (Thrown (mkError "Cannot convert object to primitive value" None None), w)
    end.

(** [util.promisify(exec)(command, {cwd})].  A command with a NUL byte is
    refused before any shell is started.  Otherwise the shell runs; the
    promise rejects when a channel has gone past [maxBuffer], with what was
    kept of both channels, and when the status is not zero, with the error
    that [child_process] builds; it resolves with both channels on status
    zero. *)
Definition execPromise (env : Env) (command cwd : string) : M (string * string) :=
  fun w =>
    if Str.includes command Str.nul then
      (Thrown (mkError ("The argument 'command' must be a string without null bytes. Received "
                          +:+ inspect env command) None None), w)
    else
      let '(r, files) := shell env command cwd (fs w) in
      let w' := emit (EvExec command cwd) (setFs files w) in
      match overflow r with
      | Some channel =>
          (Thrown (mkError (channelName channel +:+ " maxBuffer length exceeded")
                           (Some (Str.sliceTo maxBuffer (stdout r)))
                           (Some (Str.sliceTo maxBuffer (stderr r)))), w')
      | None =>
          if Z.eqb (exitCode r) 0 then (Returned (stdout r, stderr r), w')
          else (Thrown (mkError ("Command failed: " +:+ command +:+ Str.newline +:+ stderr r)
                                (Some (stdout r)) (Some (stderr r))), w')
      end.

Definition fs_existsSync (path : string) : M bool :=
  fun w => let b := bool_decide (path ∈ fs w) in
           (Returned b, emit (EvExistsSync path b) w).

(** [fs.unlink(path, callback)], from the deletion to the end of the callback. *)
Definition fs_unlink (env : Env) (path : string) (callback : option string -> M unit) : M unit :=
  fun w =>
    if bool_decide (path ∈ fs w) then
      match unlinkDenied env with
      | None => callback None (emit (EvUnlink path None) (setFs (fs w ∖ {[path]}) w))
      | Some code => callback (Some code) (emit (EvUnlink path (Some code)) w)
      end
    else callback (Some "ENOENT") (emit (EvUnlink path (Some "ENOENT")) w).

(** [res.status(code).json(body)] *)
Definition res_status_json (status : Z) (body : JS.json) : M unit :=
  fun w =>
    if headersSent w then
      (Thrown (mkError "Cannot set headers after they are sent to the client" None None), w)
    else (Returned tt, emit (EvJson status body) (setReply true (Some (JsonReply status body)) w)).

Definition res_headersSent : M bool := fun w => (Returned (headersSent w), w).

(** [res.download(path, name, callback)], from the start of the transfer to
    the end of the callback: a file that cannot be opened fails before
    anything is sent; otherwise the transfer goes as the transport allows.
    The name the caller is offered is the one that the Content-Disposition
    header carries, the basename of [name]. *)
Definition res_download (env : Env) (path name : string) (callback : option string -> M unit)
  : M unit :=
  fun w =>
    if bool_decide (path ∈ fs w) then
      match transport env with
      | Delivered =>
          callback None
            (emit (EvDownload path name None)
               (setReply true (Some (FileReply path (Path.basename name) true)) w))
      | Broken true code =>
          callback (Some code)
            (emit (EvDownload path name (Some code))
               (setReply true (Some (FileReply path (Path.basename name) false)) w))
      | Broken false code =>
          callback (Some code) (emit (EvDownload path name (Some code)) w)
      end
    else callback (Some "ENOENT") (emit (EvDownload path name (Some "ENOENT")) w).

(** ** Tactics for explicit traces *)

(** Membership of an event in an explicit trace. *)
Ltac in_trace :=
  solve [ repeat first [ apply list_elem_of_here | apply list_elem_of_further ] ].

(** All the ways a hypothesis of membership in an explicit trace can hold. *)
Ltac invert_trace H tac :=
  repeat (apply elem_of_cons in H as [H|H]; [try discriminate H; simplify_eq; tac|]);
  try (by apply elem_of_nil in H).

Ltac found_in H :=
  match type of H with
  | bool_decide _ = true => apply bool_decide_eq_true_1 in H
  | bool_decide _ = false => apply bool_decide_eq_false_1 in H
  end.

(** The path is not on disk: it never was, or it has just been removed. *)
Ltac absent H :=
  found_in H;
  first [ exact H | apply not_elem_of_difference; right; by apply elem_of_singleton ].

(** ** The server *)

Section Server.

Local Open Scope js_scope.

(** The directory of the server file and the working directory of the process. *)
Variable __dirname : string.
Variable cwd : string.

Definition remotionProjectDir : string := Path.resolve cwd [__dirname; "../frontend"].
Definition remotionEntryPoint : string :=
  Path.join [remotionProjectDir; "src/remotion/index.js"].
Definition outputDir : string := Path.resolve cwd [__dirname; "output"].

(** The command line built by [runRemotionRender], for a compositionId
    that has been converted to [idText]. *)
Definition renderCommand (idText outputPath : string) : string :=
  "npx remotion render " +:+ Str.dquote +:+ remotionEntryPoint +:+ Str.dquote +:+ " "
    +:+ idText +:+ " " +:+ Str.dquote +:+ outputPath +:+ Str.dquote.

Definition propsString (inputProps : JS.value) : string :=
  JS.JSON_stringify (JS.orElse inputProps (JS.JObj [])).

Definition escapedPropsString (inputProps : JS.value) : string :=
  Str.replaceAll "039"%char (Str.squote +:+ Str.backslash +:+ Str.squote +:+ Str.squote)
    (propsString inputProps).

Definition runRemotionRender (env : Env) (compositionId : JS.value) (outputPath : string)
    (inputProps : JS.value) : M bool :=
  let propsString := propsString inputProps in
  let escapedPropsString := escapedPropsString inputProps in
  idText <- template compositionId ;;
  let command := renderCommand idText outputPath in
  console LLog ("Executing Remotion command: " +:+ command) [] ;;
  tryCatch
    (out <- execPromise env command remotionProjectDir ;;
     let '(stdout, stderr) := out in
     console LLog "Remotion stdout:" [AStr stdout] ;;
     (when negb (bool_decide (stderr = EmptyString)) then
        console LWarn "Remotion stderr:" [AStr stderr] ;;
        when Str.includes (Str.toLowerCase stderr) "error" then
          throw (mkError ("Remotion rendering failed. Stderr: " +:+ stderr) None None)) ;;
     console LLog ("Video rendered successfully to " +:+ outputPath) [] ;;
     ret true)
    (fun error =>
       console LError ("Error executing Remotion: " +:+ message error) [] ;;
       console LError ("Stderr: " +:+ optArg (err_stderr error)) [] ;;
       console LError ("Stdout: " +:+ optArg (err_stdout error)) [] ;;
       throw error).

Record Request : Type := mkRequest {
  compositionId : JS.value;
  inputProps : JS.value
}.

Definition uniqueFilename (token idText : string) : string :=
  token +:+ "-" +:+ idText +:+ ".mp4".

Definition outputPathOf (token idText : string) : string :=
  Path.join [outputDir; uniqueFilename token idText].

Definition finalDownloadNameOf (idText : string) (now : Z) : string :=
  idText +:+ "-" +:+ pretty now +:+ ".mp4".

Definition msgBody (text : string) : JS.json := JS.JObj [("message", JS.JStr text)].

Definition renderFailedBody (reason : string) : JS.json :=
  JS.JObj [("message", JS.JStr "Video rendering failed."); ("error", JS.JStr reason)].

(** The cleanup after the download callback has settled the response. *)
Definition cleanup (env : Env) (outputPath : string) : M unit :=
  fs_unlink env outputPath (fun unlinkErr =>
    match unlinkErr with
    | Some code =>
        console LError
          ("Error deleting temporary file " +:+ Str.dquote +:+ outputPath +:+ Str.dquote +:+ ":")
          [ASysError code]
    | None =>
        console LLog
          ("Temporary file " +:+ Str.dquote +:+ outputPath +:+ Str.dquote +:+ " deleted.") []
    end).

(** An asynchronous operation that has been started: what happens when it
    completes, callback included. *)
Definition Operation : Type := M unit.

(** The handler of POST /api/render-and-download, up to the point where it
    returns; its result is the list of the operations it has started.  The
    three template literals convert the compositionId in the order of the
    source: first for the file name, after [uuidv4()]. *)
Definition handler (env : Env) (req : Request) : M (list Operation) :=
  let compositionId := compositionId req in
  let inputProps := inputProps req in
  if negb (JS.truthy compositionId) then
    res_status_json 400 (msgBody "compositionId is required.") ;;
    ret []
  else
    token <- uuidv4 env ;;
    idText <- template compositionId ;;
    let uniqueFilename := uniqueFilename token idText in
    let outputPath := Path.join [outputDir; uniqueFilename] in
    nameText <- template compositionId ;;
    now <- Date_now env ;;
    let finalDownloadName := finalDownloadNameOf nameText now in
    logText <- template compositionId ;;
    console LLog ("Starting render for composition: " +:+ logText) [] ;;
    console LLog "Input Props:" [AValue inputProps] ;;
    console LLog ("Output Path: " +:+ outputPath) [] ;;
    tryCatch
      (runRemotionRender env compositionId outputPath inputProps ;;
       ret [res_download env outputPath finalDownloadName (fun err =>
         match err with
         | Some code =>
             console LError
               ("Error sending file " +:+ Str.dquote +:+ outputPath +:+ Str.dquote
                  +:+ " for download:") [ASysError code] ;;
             sent <- res_headersSent ;;
             when negb sent then
               res_status_json 500 (msgBody "Error sending the rendered file.")
         | None =>
             console LLog
               ("File " +:+ Str.dquote +:+ outputPath +:+ Str.dquote +:+ " sent successfully.") []
         end ;;
         cleanup env outputPath)])
      (fun error =>
         console LError "Render process failed:" [AStr (message error)] ;;
         found <- fs_existsSync outputPath ;;
         let started :=
           if found then
             [fs_unlink env outputPath (fun unlinkErr =>
                match unlinkErr with
                | Some code =>
                    console LError
                      ("Error deleting file after render failure " +:+ Str.dquote +:+ outputPath
                         +:+ Str.dquote +:+ ":") [ASysError code]
                | None => ret tt
                end)]
           else [] in
         sent <- res_headersSent ;;
         (when negb sent then
            res_status_json 500 (renderFailedBody (message error))) ;;
         ret started).

(** The operations that were started complete one after the other. *)
Fixpoint eventLoop (started : list Operation) : M unit :=
  match started with
  | [] => ret tt
  | operation :: rest => operation ;; eventLoop rest
  end.

(** *** The runs the properties speak about *)

(** A request handled from the moment it arrives, with [files] on disk, to
    the end of the operations it has started. *)
Definition run (env : Env) (req : Request) (files : gset string) : Outcome unit * World :=
  (started <- handler env req ;; eventLoop started) (fresh files).

Definition final (env : Env) (req : Request) (files : gset string) : World :=
  snd (run env req files).

(** The string form of the compositionId, for a request whose compositionId
    has one (the empty string stands for the others, which no run uses). *)
Definition idText (req : Request) : string :=
  default EmptyString (JS.toString (compositionId req)).

Definition internalPath (env : Env) (req : Request) : string :=
  outputPathOf (uuid env) (idText req).

Definition deliveryName (env : Env) (req : Request) : string :=
  finalDownloadNameOf (idText req) (clock env).

Definition command (env : Env) (req : Request) : string :=
  renderCommand (idText req) (internalPath env req).

(** What the rendering engine does on this request. *)
Definition engine (env : Env) (req : Request) (files : gset string)
  : ProcResult * gset string :=
  shell env (command env req) remotionProjectDir files.

(** The Invoker alone, on this request. *)
Definition invoke (env : Env) (req : Request) (files : gset string) : Outcome bool * World :=
  runRemotionRender env (compositionId req) (internalPath env req) (inputProps req)
    (fresh files).

(** The files on disk when the Invoker ends. *)
Definition rendered (env : Env) (req : Request) (files : gset string) : gset string :=
  fs (snd (invoke env req files)).

(** The request gets as far as the shell: its compositionId has a string
    form and the command has no NUL byte. *)
Definition reachesShell (env : Env) (req : Request) : bool :=
  match JS.toString (compositionId req) with
  | Some _ => negb (Str.includes (command env req) Str.nul)
  | None => false
  end.

(** The engine is really run and its output is kept whole: the request
    gets as far as the shell and neither channel goes past [maxBuffer]. *)
Definition withinExec (env : Env) (req : Request) (files : gset string) : bool :=
  reachesShell env req
  && match overflow (fst (engine env req files)) with
     | None => true
     | Some _ => false
     end.

(** A deletion of [path] was attempted. *)
Definition unlinkAttempted (path : string) (w : World) : Prop :=
  exists err, EvUnlink path err ∈ trace w.

(** The same environment with another fate for [unlink], another clock. *)
Definition withUnlink (d : option string) (env : Env) : Env :=
  mkEnv (uuid env) (clock env) (shell env) (transport env) d (inspect env).

Definition withClock (t : Z) (env : Env) : Env :=
  mkEnv (uuid env) t (shell env) (transport env) (unlinkDenied env) (inspect env).

(** The same request with other input properties. *)
Definition withProps (props : JS.value) (req : Request) : Request :=
  mkRequest (compositionId req) props.

(** The command lines handed to the shell, in order. *)
Definition commandsRun (w : World) : list string :=
  omap (fun e => match e with EvExec c _ => Some c | _ => None end) (trace w).

(** *** Start of the server: the output directory *)

(** The directories [fs.mkdirSync(path, {recursive: true})] makes sure of:
    the path and each of its prefixes that ends before a separator. *)
Fixpoint dirsBefore (acc s : string) : list string :=
  match s with
  | EmptyString => [acc]
  | String c r =>
      (if bool_decide (c = "/"%char) && negb (bool_decide (acc = EmptyString))
       then [acc] else [])
      ++ dirsBefore (acc +:+ String c EmptyString) r
  end.

Definition dirsOf (path : string) : list string := dirsBefore EmptyString path.

(** [fs.mkdirSync(path, {recursive: true})]; [refused] is the message of the
    error it throws, if the system refuses. *)
Definition fs_mkdirSync (refused : option string) (path : string) : M unit :=
  fun w =>
    match refused with
    | Some msg => (Thrown (mkError msg None None), w)
    | None => (Returned tt, setFs (fs w ∪ list_to_set (dirsOf path)) w)
    end.

(** The top-level statements that make sure the output directory exists. *)
Definition ensureOutputDir (refused : option string) : M unit :=
  found <- fs_existsSync outputDir ;;
  when negb found then
    fs_mkdirSync refused outputDir ;;
    console LLog ("Created output directory: " +:+ outputDir) [].

(** *** Views of a run *)

(** The stages a request goes through, as its effects show them. *)
Inductive Step : Type := SRender | SProbe | SDeliver | SCleanup | SReply.

Definition stepOf (e : Event) : option Step :=
  match e with
  | EvExec _ _ => Some SRender
  | EvExistsSync _ _ => Some SProbe
  | EvDownload _ _ _ => Some SDeliver
  | EvUnlink _ _ => Some SCleanup
  | EvJson _ _ => Some SReply
  | _ => None
  end.

Definition steps (w : World) : list Step := omap stepOf (trace w).

(** The message of the error a computation raised, if it raised one. *)
Definition raised {A : Type} (o : Outcome A) : option string :=
  match o with
  | Thrown e => Some (message e)
  | Returned _ => None
  end.

(** The JSON replies written, in order. *)
Definition jsonReplies (w : World) : list (Z * JS.json) :=
  omap (fun e => match e with EvJson st body => Some (st, body) | _ => None end) (trace w).

(** The same environment whose engine prints something else on its
    informational channel. *)
Definition withStdout (f : string -> string) (env : Env) : Env :=
  mkEnv (uuid env) (clock env)
    (fun cmd dir files =>
       let '(r, files') := shell env cmd dir files in
       (mkProc (exitCode r) (f (stdout r)) (stderr r) (firstFull r), files'))
    (transport env) (unlinkDenied env) (inspect env).

(** *** Values for concrete runs *)

(** The server installed in [/srv/backend] and started there. *)
Definition demoDir : string := "/srv/backend".

Definition demoToken : string := "0f8fad5b-d9cb-469f-a165-70867728950e".
Definition otherToken : string := "7c9e6679-7425-40de-944b-e07fc1f90ae7".
Definition demoClock : Z := 1700000000000.

(** A rendering of [util.inspect] on a short string without quotes. *)
Definition demoInspect (s : string) : string := Str.squote +:+ s +:+ Str.squote.

(** An engine that writes [out] and ends with the given status and error text. *)
Definition writesOutput (out : string) (status : Z) (err : string)
  : string -> string -> gset string -> ProcResult * gset string :=
  fun _ _ files => (mkProc status "frames rendered" err Stdout, files ∪ {[out]}).

(** An engine that writes nothing. *)
Definition writesNothing (status : Z) (err : string)
  : string -> string -> gset string -> ProcResult * gset string :=
  fun _ _ files => (mkProc status EmptyString err Stdout, files).

(** An engine that writes no file and prints the given texts. *)
Definition prints (status : Z) (out err : string)
  : string -> string -> gset string -> ProcResult * gset string :=
  fun _ _ files => (mkProc status out err Stdout, files).

(** One byte more than [exec] keeps, without the marker word in it. *)
Definition tooLong : string :=
  N.iter (N.succ maxBuffer) (String "."%char) EmptyString.

Definition introProps : JS.value := Some (JS.JObj [("title", JS.JStr "Hello")]).

Definition introRequest : Request := mkRequest (Some (JS.JStr "intro")) introProps.

Definition introPath : string :=
  "/srv/backend/output/0f8fad5b-d9cb-469f-a165-70867728950e-intro.mp4".

(** Everything goes well. *)
Definition goodEnv : Env :=
  mkEnv demoToken demoClock (writesOutput introPath 0 EmptyString) Delivered None demoInspect.

(** Everything goes well, except that the file cannot be unlinked. *)
Definition refusedEnv : Env :=
  mkEnv demoToken demoClock (writesOutput introPath 0 EmptyString) Delivered (Some "EPERM")
    demoInspect.

(** The engine crashes after it has written part of the file. *)
Definition crashedEnv : Env :=
  mkEnv demoToken demoClock (writesOutput introPath 1 "ffmpeg crashed") Delivered None
    demoInspect.

Definition crashedRefusedEnv : Env :=
  mkEnv demoToken demoClock (writesOutput introPath 1 "ffmpeg crashed") Delivered
    (Some "EBUSY") demoInspect.

(** The connection breaks while the file is being sent. *)
Definition brokenEnv : Env :=
  mkEnv demoToken demoClock (writesOutput introPath 0 EmptyString) (Broken true "EPIPE") None
    demoInspect.

(** The engine reports success and writes nothing. *)
Definition silentEnv : Env :=
  mkEnv demoToken demoClock (writesNothing 0 "Rendered 0 frames") Delivered None demoInspect.

(** The engine ends with status zero after more progress text than [exec]
    keeps, on its error channel, or on its informational channel. *)
Definition chattyEnv : Env :=
  mkEnv demoToken demoClock (prints 0 EmptyString tooLong) Delivered None demoInspect.

Definition verboseEnv : Env :=
  mkEnv demoToken demoClock (prints 0 tooLong EmptyString) Delivered None demoInspect.

(** The engine crashes with a short diagnostic after too much progress text. *)
Definition crashedVerboseEnv : Env :=
  mkEnv demoToken demoClock (prints 1 tooLong "ffmpeg crashed") Delivered None demoInspect.

(** A second request, with its own token. *)
Definition otherEnv : Env :=
  mkEnv otherToken demoClock (writesNothing 0 EmptyString) Delivered None demoInspect.

Definition emptyIdRequest : Request := mkRequest (Some (JS.JStr EmptyString)) introProps.

(** Identifiers with path separators. *)
Definition traversalRequest (title : string) : Request :=
  mkRequest (Some (JS.JStr "/../x")) (Some (JS.JObj [("title", JS.JStr title)])).

Definition doubledRequest : Request := mkRequest (Some (JS.JStr "a//b")) None.

Definition nestedRequest : Request := mkRequest (Some (JS.JStr "a/b")) None.

(** An engine that writes the file of the nested identifier. *)
Definition nestedPath : string :=
  "/srv/backend/output/0f8fad5b-d9cb-469f-a165-70867728950e-a/b.mp4".

Definition nestedEnv : Env :=
  mkEnv demoToken demoClock (writesOutput nestedPath 0 EmptyString) Delivered None demoInspect.


Definition unprintableRequest : Request :=
  mkRequest (Some (JS.JObj [("toString", JS.JNum "1")])) None.



(** * Facts about strings and paths *)

Lemma app_cons (c : ascii) (a b : string) : String c a +:+ b = String c (a +:+ b).
Proof. reflexivity. Qed.

Lemma app_nil_l (b : string) : EmptyString +:+ b = b.
Proof. reflexivity. Qed.

Lemma app_empty_r (s : string) : s +:+ EmptyString = s.
Proof. induction s as [|c s IH]; [reflexivity|]. by rewrite app_cons, IH. Qed.

Lemma app_assoc_s (a b c : string) : (a +:+ b) +:+ c = a +:+ b +:+ c.
Proof. induction a as [|x a IH]; [reflexivity|]. by rewrite !app_cons, IH. Qed.

Lemma length_app_s (a b : string) :
  String.length (a +:+ b) = (String.length a + String.length b)%nat.
Proof. induction a as [|x a IH]; [reflexivity|]. rewrite app_cons. cbn. by rewrite IH. Qed.

(** Two concatenations with heads of one length agree part by part. *)
Lemma app_inj_length (a1 a2 b1 b2 : string) :
  String.length a1 = String.length a2 ->
  a1 +:+ b1 = a2 +:+ b2 -> a1 = a2 /\ b1 = b2.
Proof.
  revert a2. induction a1 as [|x a1 IH]; intros [|y a2] Hlen Heq; try discriminate.
  - by split.
  - rewrite !app_cons in Heq. injection Heq as -> Heq. injection Hlen as Hlen.
    destruct (IH _ Hlen Heq) as [-> ->]. by split.
Qed.

Lemma startsWith_spec (s p : string) :
  Str.startsWith s p = true <-> exists b, s = p +:+ b.
Proof.
  revert s. induction p as [|a p IH]; intros s.
  - split; [intros _; by exists s | by destruct s].
  - destruct s as [|b s]; cbn.
    + split; [done | intros [r Hr]; discriminate].
    + case_decide as Hab.
      * subst b. rewrite IH. split; intros [r Hr]; exists r.
        -- by rewrite Hr, app_cons.
        -- rewrite app_cons in Hr. by injection Hr.
      * split; [done | intros [r Hr]; rewrite app_cons in Hr; injection Hr as -> _; done].
Qed.

Lemma includes_unfold (s p : string) :
  Str.includes s p =
    if Str.startsWith s p then true
    else match s with
         | EmptyString => false
         | String _ r => Str.includes r p
         end.
Proof. by destruct s. Qed.

(** [includes] is the test for a substring. *)
Lemma includes_spec (s p : string) :
  Str.includes s p = true <-> exists a b, s = a +:+ p +:+ b.
Proof.
  induction s as [|c s IH]; rewrite includes_unfold;
    destruct (Str.startsWith _ p) eqn:Hst.
  - apply startsWith_spec in Hst as [b Hb]. split; [|done].
    intros _. by exists EmptyString, b.
  - split; [done|]. intros ([|x a] & b & Hab); [|discriminate].
    assert (Str.startsWith EmptyString p = true) as Ht; [|congruence].
    apply startsWith_spec. by exists b.
  - apply startsWith_spec in Hst as [b Hb]. split; [|done].
    intros _. by exists EmptyString, b.
  - rewrite IH. split.
    + intros (a & b & ->). by exists (String c a), b.
    + intros ([|x a] & b & Hab).
      * assert (Str.startsWith (String c s) p = true) as Ht; [|congruence].
        apply startsWith_spec. by exists b.
      * rewrite app_cons in Hab. injection Hab as -> ->. by exists a, b.
Qed.

Lemma includes_suffix (a s : string) : Str.includes (a +:+ s) s = true.
Proof. apply includes_spec. exists a, EmptyString. by rewrite app_empty_r. Qed.

Lemma toLowerCase_app (a b : string) :
  Str.toLowerCase (a +:+ b) = Str.toLowerCase a +:+ Str.toLowerCase b.
Proof. induction a as [|c a IH]; [reflexivity|]. rewrite app_cons. cbn. by rewrite IH, app_cons. Qed.

Lemma toLowerCase_split (s x y : string) :
  Str.toLowerCase s = x +:+ y ->
  exists s1 s2, s = s1 +:+ s2 /\ Str.toLowerCase s1 = x /\ Str.toLowerCase s2 = y.
Proof.
  revert s. induction x as [|c x IH]; intros s H.
  - by exists EmptyString, s.
  - destruct s as [|d s]; [discriminate|]. rewrite app_cons in H. cbn in H.
    injection H as Hc H.
    destruct (IH _ H) as (s1 & s2 & -> & <- & <-).
    exists (String d s1), s2. cbn. by rewrite Hc.
Qed.

(** Containment after lowering is containment of the word in any casing. *)
Lemma includes_lower_spec (s p : string) :
  Str.includes (Str.toLowerCase s) p = true <->
  exists a m b, s = a +:+ m +:+ b /\ Str.toLowerCase m = p.
Proof.
  rewrite includes_spec. split.
  - intros (x & y & H).
    apply toLowerCase_split in H as (a & r & -> & _ & H).
    apply toLowerCase_split in H as (m & b & -> & Hm & _).
    by exists a, m, b.
  - intros (a & m & b & -> & <-).
    exists (Str.toLowerCase a), (Str.toLowerCase b). by rewrite !toLowerCase_app.
Qed.

(** ** Splitting and joining at the separator *)

Lemma split_nonempty (c : ascii) (s : string) : Str.split c s <> [].
Proof.
  destruct s as [|a r]; [done|]. cbn.
  case_decide; [done|]. by destruct (Str.split c r).
Qed.

Lemma split_cons_sep (c : ascii) (r : string) :
  Str.split c (String c r) = EmptyString :: Str.split c r.
Proof. cbn. by rewrite decide_True. Qed.

Lemma split_cons_other (c a : ascii) (r h : string) (t : list string) :
  a <> c -> Str.split c r = h :: t -> Str.split c (String a r) = String a h :: t.
Proof. intros Hne Hr. cbn. by rewrite decide_False, Hr. Qed.

Lemma split_app_sep (c : ascii) (a b : string) :
  Str.split c (a +:+ String c b) = Str.split c a ++ Str.split c b.
Proof.
  induction a as [|x a IH].
  - rewrite app_nil_l. by rewrite split_cons_sep.
  - rewrite app_cons. destruct (decide (x = c)) as [->|Hne].
    + by rewrite !split_cons_sep, IH.
    + destruct (Str.split c a) as [|h t] eqn:Hsplit; [by destruct (split_nonempty c a)|].
      rewrite (split_cons_other c x a h t Hne Hsplit).
      by rewrite (split_cons_other c x _ h (t ++ Str.split c b) Hne IH).
Qed.

Lemma join_cons (sep x : string) (l : list string) :
  l <> [] -> Str.join sep (x :: l) = x +:+ sep +:+ Str.join sep l.
Proof. by destruct l. Qed.

Lemma join_cons_char (sep : string) (a : ascii) (h : string) (t : list string) :
  Str.join sep (String a h :: t) = String a (Str.join sep (h :: t)).
Proof. by destruct t. Qed.

Lemma join_split (c : ascii) (s : string) :
  Str.join (String c EmptyString) (Str.split c s) = s.
Proof.
  induction s as [|a r IH]; [done|].
  destruct (decide (a = c)) as [->|Hne].
  - rewrite split_cons_sep, join_cons by apply split_nonempty. by rewrite IH.
  - destruct (Str.split c r) as [|h t] eqn:Hsplit; [by destruct (split_nonempty c r)|].
    rewrite (split_cons_other c a r h t Hne Hsplit), join_cons_char. by rewrite IH.
Qed.

Lemma split_single_empty (c : ascii) (s : string) :
  Str.split c s = [EmptyString] -> s = EmptyString.
Proof. intros H. by rewrite <- (join_split c s), H. Qed.

Lemma split_whole (c : ascii) (s : string) : Forall (Path.whole c) (Str.split c s).
Proof.
  induction s as [|a r IH]; [by repeat constructor|].
  destruct (decide (a = c)) as [->|Hne].
  - rewrite split_cons_sep. by constructor.
  - destruct (Str.split c r) as [|h t] eqn:Hsplit; [by destruct (split_nonempty c r)|].
    rewrite (split_cons_other c a r h t Hne Hsplit).
    inversion IH as [|? ? Hh Ht]; subst. constructor; [|done].
    unfold Path.whole in *. by apply split_cons_other.
Qed.

Lemma split_join (c : ascii) (segs : list string) :
  Forall (Path.whole c) segs -> segs <> [] ->
  Str.split c (Str.join (String c EmptyString) segs) = segs.
Proof.
  induction segs as [|x l IH]; [done|]. intros Hall _.
  inversion Hall as [|? ? Hx Hl]; subst.
  destruct l as [|y l]; [done|].
  rewrite join_cons by done.
  change (String c EmptyString +:+ ?z) with (String c z).
  rewrite split_app_sep, Hx, IH by done. done.
Qed.

Lemma join_app (sep : string) (l1 l2 : list string) :
  l1 <> [] -> l2 <> [] ->
  Str.join sep (l1 ++ l2) = Str.join sep l1 +:+ sep +:+ Str.join sep l2.
Proof.
  induction l1 as [|x l1 IH]; [done|]. intros _ H2.
  destruct l1 as [|y l1].
  - cbn [app]. by rewrite join_cons.
  - change ((x :: y :: l1) ++ l2) with (x :: (y :: l1) ++ l2).
    rewrite !join_cons by done. rewrite IH by done. by rewrite !app_assoc_s.
Qed.

Lemma endsWithChar_last (c : ascii) (s : string) :
  Str.endsWithChar c s = true -> last (Str.split c s) = Some EmptyString.
Proof.
  induction s as [|a r IH]; [done|]. intros H.
  destruct r as [|b r'].
  - cbn in H. apply bool_decide_eq_true in H as ->. by rewrite split_cons_sep.
  - specialize (IH H).
    destruct (Str.split c (String b r')) as [|h t] eqn:Hsplit; [done|].
    destruct (decide (a = c)) as [->|Hne].
    + rewrite split_cons_sep, Hsplit. done.
    + rewrite (split_cons_other c a _ h t Hne Hsplit).
      destruct t as [|h' t']; [|done].
      cbn in IH. injection IH as ->. by apply split_single_empty in Hsplit.
Qed.

(** ** Normalisation *)

Lemma normalizeStep_clean (allow : bool) (stack : list string) (seg : string) :
  Path.cleanSegment seg = true -> Path.normalizeStep allow stack seg = seg :: stack.
Proof.
  unfold Path.cleanSegment, Path.normalizeStep. intros H.
  apply andb_true_iff in H as [H H3]. apply andb_true_iff in H as [H1 H2].
  apply negb_true_iff, bool_decide_eq_false in H1, H2, H3.
  by rewrite !decide_False.
Qed.

Lemma fold_normalizeStep_clean (allow : bool) (segs stack : list string) :
  forallb Path.cleanSegment segs = true ->
  fold_left (Path.normalizeStep allow) segs stack = rev segs ++ stack.
Proof.
  revert stack. induction segs as [|x l IH]; intros stack H; [done|].
  cbn in H. apply andb_true_iff in H as [Hx Hl].
  cbn [fold_left rev]. rewrite normalizeStep_clean, IH by done.
  by rewrite <- app_assoc.
Qed.

(** Below the root, normalisation keeps clean segments of its input only. *)
Lemma fold_normalizeStep_keeps (P : string -> Prop) (segs stack : list string) :
  Forall P segs ->
  Forall (fun seg => Path.cleanSegment seg = true /\ P seg) stack ->
  Forall (fun seg => Path.cleanSegment seg = true /\ P seg)
    (fold_left (Path.normalizeStep false) segs stack).
Proof.
  revert stack. induction segs as [|x l IH]; intros stack Hsegs Hstack; [done|].
  inversion Hsegs as [|? ? Hx Hl]; subst. cbn [fold_left]. apply IH; [done|].
  unfold Path.normalizeStep. repeat case_decide; try done.
  - destruct stack as [|top rest]; [done|].
    inversion Hstack; subst. by case_decide.
  - constructor; [|done]. split; [|done].
    unfold Path.cleanSegment. by rewrite !bool_decide_eq_false_2.
Qed.

Lemma forallb_clean (segs : list string) :
  Forall (fun seg => Path.cleanSegment seg = true /\ Path.whole "/"%char seg) segs ->
  forallb Path.cleanSegment segs = true /\ Forall (Path.whole "/"%char) segs.
Proof.
  induction 1 as [|x l [Hc Hw] _ [IH1 IH2]]; [done|].
  split; [cbn; by rewrite Hc, IH1 | by constructor].
Qed.

(** The output directory is an absolute path of clean segments. *)
Lemma outputDir_shape :
  Path.isAbsolute __dirname = true ->
  exists dsegs,
    dsegs <> [] /\
    Forall (fun seg => Path.cleanSegment seg = true /\ Path.whole "/"%char seg) dsegs /\
    outputDir = "/" +:+ Str.join "/" dsegs.
Proof.
  intros Habs.
  assert (__dirname <> EmptyString) as Hne by (by destruct __dirname).
  assert (Path.resolveLoop cwd ["output"; __dirname] EmptyString
          = (__dirname +:+ String "/"%char "output/", true)) as Hloop.
  { cbn [Path.resolveLoop]. rewrite decide_False by done.
    change (Path.isAbsolute "output") with false. cbn iota.
    by rewrite decide_False, Habs by done. }
  unfold outputDir, Path.resolve. cbn [rev app]. rewrite Hloop. cbn [negb].
  unfold Path.normalizeString, Path.normalizeSegments.
  rewrite split_app_sep, fold_left_app.
  change (Str.split "/"%char "output/") with ["output"; EmptyString].
  set (stack := fold_left _ (Str.split "/"%char __dirname) []).
  change (fold_left (Path.normalizeStep false) ["output"; EmptyString] stack)
    with ("output" :: stack).
  exists (rev ("output" :: stack)). split_and!; [|
    apply Forall_rev; constructor; [by split |] | done].
  - cbn [rev]. by destruct (rev stack).
  - apply fold_normalizeStep_keeps; [apply split_whole | done].
Qed.

Lemma app_sep_nonempty (a b : string) (c : ascii) : a +:+ String c b <> EmptyString.
Proof. by destruct a. Qed.


(** ** Segments without separator, and the basename *)

Lemma whole_cons (c a : ascii) (s : string) :
  a <> c -> Path.whole c s -> Path.whole c (String a s).
Proof. intros Hne Hs. unfold Path.whole in *. by apply split_cons_other. Qed.

Lemma whole_inv (c a : ascii) (s : string) :
  Path.whole c (String a s) -> a <> c /\ Path.whole c s.
Proof.
  unfold Path.whole. intros H. destruct (decide (a = c)) as [->|Hne].
  - by rewrite split_cons_sep in H.
  - split; [done|].
    destruct (Str.split c s) as [|h t] eqn:Hsplit; [by destruct (split_nonempty c s)|].
    rewrite (split_cons_other c a s h t Hne Hsplit) in H. by injection H as -> ->.
Qed.

Lemma whole_app (c : ascii) (a b : string) :
  Path.whole c a -> Path.whole c b -> Path.whole c (a +:+ b).
Proof.
  induction a as [|x a IH]; intros Ha Hb; [done|].
  apply whole_inv in Ha as [Hne Ha]. rewrite app_cons. apply whole_cons; auto.
Qed.

(** The first segment of a string that begins with a whole one. *)
Lemma split_app_whole (c : ascii) (a b h : string) (t : list string) :
  Path.whole c a -> Str.split c b = h :: t -> Str.split c (a +:+ b) = (a +:+ h) :: t.
Proof.
  induction a as [|x a IH]; intros Ha Hb; [done|].
  apply whole_inv in Ha as [Hne Ha]. rewrite !app_cons.
  by apply split_cons_other, IH.
Qed.

Lemma basename_whole (s : string) :
  s <> EmptyString -> Path.whole "/"%char s -> Path.basename s = s.
Proof.
  intros Hne Hs. unfold Path.basename. rewrite Hs. cbn.
  by rewrite decide_True.
Qed.

Lemma pretty_N_char_whole (x : N) (s : string) :
  Path.whole "/"%char s -> Path.whole "/"%char (String (pretty_N_char x) s).
Proof.
  intros Hs. apply whole_cons; [|done].
  unfold pretty_N_char. by repeat case_match.
Qed.

Lemma pretty_N_go_whole (x : N) (s : string) :
  Path.whole "/"%char s -> Path.whole "/"%char (pretty_N_go x s).
Proof.
  revert s. induction (N.lt_wf_0 x) as [x _ IH]; intros s Hs.
  destruct (decide (0 < x)%N) as [Hx|Hx].
  - rewrite pretty_N_go_step by done. apply IH.
    + by apply N.div_lt.
    + by apply pretty_N_char_whole.
  - assert (x = 0%N) as -> by lia. by rewrite pretty_N_go_0.
Qed.

(** A number printed in decimal has no separator in it. *)
Lemma pretty_N_whole (x : N) : Path.whole "/"%char (pretty x).
Proof.
  unfold pretty, pretty_N. case_decide; [done|]. by apply pretty_N_go_whole.
Qed.

Lemma pretty_Z_whole (x : Z) : Path.whole "/"%char (pretty x).
Proof.
  destruct x as [|p|p]; [done | apply pretty_N_whole |].
  apply (whole_app _ "-"); [done | apply pretty_N_whole].
Qed.

(** ** Names whose first segment is kept *)

Lemma staysInside_fold (rest above base : list string) :
  Path.staysInside (length above) rest = true ->
  Forall (fun seg => seg <> "..") above ->
  exists above',
    fold_left (Path.normalizeStep false) rest (above ++ base) = above' ++ base.
Proof.
  revert above. induction rest as [|seg rest IH]; intros above Hstays Habove.
  - by exists above.
  - cbn [fold_left]. cbn [Path.staysInside] in Hstays. unfold Path.normalizeStep.
    repeat case_decide.
    + by apply IH.
    + by apply IH.
    + destruct above as [|top above1]; [done|]. cbn [length] in Hstays.
      inversion Habove as [|? ? Htop Habove1]; subst. cbn [app].
      rewrite decide_False by done. by apply IH.
    + apply (IH (seg :: above)); [done|]. by constructor.
Qed.

Lemma endsWithChar_app (c : ascii) (a b : string) :
  b <> EmptyString -> Str.endsWithChar c (a +:+ b) = Str.endsWithChar c b.
Proof.
  intros Hb. induction a as [|x a IH]; [done|].
  rewrite app_cons. cbn [Str.endsWithChar].
  destruct (a +:+ b) as [|y r] eqn:Hab; [|done].
  by destruct a, b.
Qed.

(** Joined onto the output directory, a name whose first segment is kept
    gives a path that continues the output directory with that segment. *)
Lemma join_keepsHead (f h : string) (rest : list string) :
  Path.isAbsolute __dirname = true ->
  Str.split "/"%char f = h :: rest ->
  Path.keepsHead f = true ->
  exists tail, Path.join [outputDir; f] = (outputDir +:+ "/" +:+ h) +:+ tail.
Proof.
  intros Habs Hsplit Hkeeps.
  destruct (outputDir_shape Habs) as (dsegs & Hne & Hd & ->).
  apply forallb_clean in Hd as [Hdclean Hdwhole].
  unfold Path.keepsHead in Hkeeps. rewrite Hsplit in Hkeeps.
  apply andb_true_iff in Hkeeps as [Hh Hstays].
  assert (f <> EmptyString) as Hf by (intros ->; by injection Hsplit as <- _).
  unfold Path.join, Path.joinArgs. cbn [fold_left].
  rewrite !decide_False by done.
  unfold Path.normalize. rewrite decide_False by done.
  set (D := Str.join "/" dsegs).
  change (("/" +:+ D) +:+ "/" +:+ f) with (String "/"%char (D +:+ String "/"%char f)).
  cbn [Path.isAbsolute]. rewrite bool_decide_eq_true_2 by done. cbn [negb].
  assert (Str.split "/"%char (String "/"%char (D +:+ String "/"%char f))
          = EmptyString :: (dsegs ++ [h]) ++ rest) as Hall.
  { rewrite split_cons_sep, split_app_sep, Hsplit. unfold D.
    rewrite split_join by done. by rewrite <- app_assoc. }
  destruct (staysInside_fold rest [] (h :: rev dsegs) Hstays) as [above' Hfold]; [done|].
  assert (Path.normalizeString (String "/"%char (D +:+ String "/"%char f)) false
          = D +:+ "/" +:+ Str.join "/" (h :: rev above')) as ->.
  { unfold Path.normalizeString, Path.normalizeSegments. rewrite Hall.
    cbn [fold_left]. change (Path.normalizeStep false [] EmptyString) with (@nil string).
    rewrite fold_left_app, (fold_normalizeStep_clean false (dsegs ++ [h]) []).
    - rewrite app_nil_r, rev_app_distr. cbn [rev app]. cbn [app] in Hfold.
      rewrite Hfold, rev_app_distr. cbn [rev]. rewrite rev_involutive, <- app_assoc.
      cbn [app]. by rewrite join_app.
    - rewrite forallb_app. cbn. by rewrite Hdclean, Hh. }
  assert (exists more, Str.join "/" (h :: rev above') = h +:+ more) as [more ->].
  { destruct (rev above') as [|y l].
    - exists EmptyString. by rewrite app_empty_r.
    - exists ("/" +:+ Str.join "/" (y :: l)). by rewrite join_cons. }
  rewrite decide_False by (by destruct D).
  destruct (Str.endsWithChar _ _).
  - exists (more +:+ "/"). by rewrite !app_assoc_s.
  - exists more. by rewrite !app_assoc_s.
Qed.

(** ** Tokens and file names *)

Lemma hasShape_length (sh : list (ascii -> bool)) (s : string) :
  Uuid.hasShape sh s = true -> String.length s = length sh.
Proof.
  revert s. induction sh as [|f sh IH]; intros [|c s] H; try done.
  cbn in H. apply andb_true_iff in H as [_ H]. cbn. by rewrite (IH s H).
Qed.

Lemma isUuid_length (s : string) : Uuid.isUuid s = true -> String.length s = 36%nat.
Proof. intros H. by apply hasShape_length in H. Qed.

(** File names built on different tokens are different. *)
Lemma uniqueFilename_token (u1 u2 s1 s2 : string) :
  Uuid.isUuid u1 = true -> Uuid.isUuid u2 = true ->
  uniqueFilename u1 s1 = uniqueFilename u2 s2 -> u1 = u2.
Proof.
  intros H1 H2 Heq. unfold uniqueFilename in Heq.
  apply app_inj_length in Heq as [Hu _]; [done|].
  by rewrite (isUuid_length u1), (isUuid_length u2).
Qed.

Lemma hasShape_whole (sh : list (ascii -> bool)) (s : string) :
  Forall (fun f => f "/"%char = false) sh ->
  Uuid.hasShape sh s = true -> Path.whole "/"%char s.
Proof.
  revert s. induction sh as [|f sh IH]; intros [|c s] Hsh H; try done.
  inversion Hsh as [|? ? Hf Hrest]; subst.
  cbn in H. apply andb_true_iff in H as [Hc H].
  apply whole_cons; [|by apply IH]. intros ->. congruence.
Qed.

(** A token has no separator in it. *)
Lemma isUuid_whole (s : string) : Uuid.isUuid s = true -> Path.whole "/"%char s.
Proof.
  apply hasShape_whole. unfold Uuid.shape. by repeat constructor.
Qed.

(** The path of a file name whose token segment is kept begins with the
    output directory and the token. *)
Lemma outputPath_under_token (u text : string) :
  Path.isAbsolute __dirname = true ->
  Uuid.isUuid u = true ->
  Path.keepsHead (uniqueFilename u text) = true ->
  exists tail, outputPathOf u text = (outputDir +:+ "/" +:+ u) +:+ tail.
Proof.
  intros Habs Hu Hkeeps. unfold outputPathOf.
  destruct (Str.split "/"%char ("-" +:+ text +:+ ".mp4")) as [|h0 rest] eqn:Hrest;
    [by destruct (split_nonempty "/"%char ("-" +:+ text +:+ ".mp4"))|].
  pose proof (split_app_whole "/"%char u _ h0 rest (isUuid_whole u Hu) Hrest) as Hsplit.
  destruct (join_keepsHead (uniqueFilename u text) (u +:+ h0) rest Habs Hsplit Hkeeps)
    as [tail ->].
  exists (h0 +:+ tail). by rewrite !app_assoc_s.
Qed.

(** A [..] that undoes the first segment of a name undoes it whatever that
    segment is. *)
Lemma undone_fold (rest above base : list string) (h1 h2 : string) :
  Path.staysInside (length above) rest = false ->
  Forall (fun seg => seg <> "..") above ->
  h1 <> ".." -> h2 <> ".." ->
  fold_left (Path.normalizeStep false) rest (above ++ h1 :: base)
  = fold_left (Path.normalizeStep false) rest (above ++ h2 :: base).
Proof.
  intros Hout Habove H1 H2. revert above Hout Habove.
  induction rest as [|seg rest IH]; intros above Hout Habove; [done|].
  cbn [fold_left]. cbn [Path.staysInside] in Hout. unfold Path.normalizeStep.
  repeat case_decide.
  - by apply IH.
  - by apply IH.
  - destruct above as [|top above1].
    + cbn [app]. by rewrite !decide_False by done.
    + cbn [length] in Hout. inversion Habove as [|? ? Htop Habove1]; subst.
      cbn [app]. rewrite !decide_False by done. by apply IH.
  - apply (IH (seg :: above)); [done|]. by constructor.
Qed.

(** Joined onto the output directory, two names that differ only in a first
    segment that is undone give the same path. *)
Lemma join_undone_head (u1 u2 g h0 : string) (rest : list string) :
  Path.isAbsolute __dirname = true ->
  Path.whole "/"%char u1 -> Path.whole "/"%char u2 ->
  Path.cleanSegment (u1 +:+ h0) = true -> Path.cleanSegment (u2 +:+ h0) = true ->
  g <> EmptyString ->
  Str.split "/"%char g = h0 :: rest ->
  Path.staysInside 0 rest = false ->
  Path.join [outputDir; u1 +:+ g] = Path.join [outputDir; u2 +:+ g].
Proof.
  intros Habs Hu1 Hu2 Hc1 Hc2 Hg Hsplit Hout.
  destruct (outputDir_shape Habs) as (dsegs & Hne & Hd & ->).
  apply forallb_clean in Hd as [Hdclean Hdwhole].
  set (D := Str.join "/" dsegs).
  assert (forall u, Path.join ["/" +:+ D; u +:+ g]
                    = Path.normalize (String "/"%char (D +:+ String "/"%char (u +:+ g))))
    as Hjoin.
  { intros u. assert (u +:+ g <> EmptyString) as Hf by (destruct u, g; done).
    unfold Path.join, Path.joinArgs. cbn [fold_left]. by rewrite !decide_False by done. }
  assert (forall u, Str.endsWithChar "/"%char
                      (String "/"%char (D +:+ String "/"%char (u +:+ g)))
                    = Str.endsWithChar "/"%char g) as Hends.
  { intros u.
    change (String "/"%char (D +:+ String "/"%char (u +:+ g)))
      with ("/" +:+ D +:+ "/" +:+ u +:+ g).
    rewrite <- !app_assoc_s. by apply endsWithChar_app. }
  assert (forall u, Path.whole "/"%char u -> Path.cleanSegment (u +:+ h0) = true ->
            Path.normalizeString (String "/"%char (D +:+ String "/"%char (u +:+ g))) false
            = Str.join "/" (rev (fold_left (Path.normalizeStep false) rest
                                   ((u +:+ h0) :: rev dsegs)))) as Hnorm.
  { intros u Hu Hc. unfold Path.normalizeString, Path.normalizeSegments.
    rewrite split_cons_sep, split_app_sep, (split_app_whole _ u g h0 rest Hu Hsplit).
    unfold D. rewrite split_join by done.
    cbn [fold_left]. change (Path.normalizeStep false [] EmptyString) with (@nil string).
    change ((u +:+ h0) :: rest) with ([u +:+ h0] ++ rest).
    rewrite app_assoc, fold_left_app, (fold_normalizeStep_clean false (dsegs ++ [u +:+ h0]) []).
    - by rewrite app_nil_r, rev_app_distr.
    - rewrite forallb_app. cbn. by rewrite Hdclean, Hc. }
  rewrite !Hjoin. unfold Path.normalize. rewrite !decide_False by done.
  rewrite !Hends. cbn [Path.isAbsolute]. rewrite bool_decide_eq_true_2 by done. cbn [negb].
  rewrite (Hnorm u1), (Hnorm u2) by done.
  assert (fold_left (Path.normalizeStep false) rest ((u1 +:+ h0) :: rev dsegs)
          = fold_left (Path.normalizeStep false) rest ((u2 +:+ h0) :: rev dsegs)) as ->;
    [|done].
  apply (undone_fold rest [] (rev dsegs) (u1 +:+ h0) (u2 +:+ h0)); try done.
  - intros Heq. by rewrite Heq in Hc1.
  - intros Heq. by rewrite Heq in Hc2.
Qed.

(** A token followed by a dash is a real segment. *)
Lemma token_segment_clean (u rest : string) :
  Uuid.isUuid u = true -> Path.cleanSegment (u +:+ String "-"%char rest) = true.
Proof.
  intros Hu. apply isUuid_length in Hu.
  do 3 (destruct u as [|? u]; [done|]).
  unfold Path.cleanSegment. rewrite !app_cons. by rewrite !bool_decide_eq_false_2.
Qed.

(** The path of a file name whose token segment is undone does not depend
    on the token. *)
Lemma outputPath_without_token (u1 u2 text : string) :
  Path.isAbsolute __dirname = true ->
  Uuid.isUuid u1 = true -> Uuid.isUuid u2 = true ->
  Path.keepsHead (uniqueFilename u1 text) = false ->
  outputPathOf u1 text = outputPathOf u2 text.
Proof.
  intros Habs Hu1 Hu2 Hlost. unfold outputPathOf, uniqueFilename in *.
  destruct (Str.split "/"%char ("-" +:+ text +:+ ".mp4")) as [|h0 rest] eqn:Hrest;
    [by destruct (split_nonempty "/"%char ("-" +:+ text +:+ ".mp4"))|].
  assert (exists h', h0 = String "-"%char h') as [h' ->].
  { change ("-" +:+ text +:+ ".mp4") with (String "-"%char (text +:+ ".mp4")) in Hrest.
    cbn [Str.split] in Hrest. rewrite decide_False in Hrest by done.
    destruct (Str.split "/"%char (text +:+ ".mp4")) as [|x l]; simplify_eq; by eexists. }
  unfold Path.keepsHead in Hlost.
  rewrite (split_app_whole _ u1 _ _ rest (isUuid_whole u1 Hu1) Hrest) in Hlost.
  rewrite token_segment_clean in Hlost by done. cbn [andb] in Hlost.
  apply (join_undone_head u1 u2 _ (String "-"%char h') rest); try done.
  - by apply isUuid_whole.
  - by apply isUuid_whole.
  - by apply token_segment_clean.
  - by apply token_segment_clean.
Qed.

(** * Properties of the handler *)

(** Symbolic execution: unfold the primitives and follow the branches of the
    code.  The path and the command of the request stay folded, as
    [internalPath] and [command]. *)
Ltac unfold_prims :=
  unfold cleanup in *;
  unfold bind, tryCatch, Date_now, uuidv4, template, console, execPromise, res_download,
    fs_unlink, fs_existsSync, res_headersSent, res_status_json, throw, ret,
    emit, setFs, setReply, fresh in *.

Ltac reduce :=
  cbn -[String.app Str.includes Str.toLowerCase Str.sliceTo Str.byteLength Path.join
        Path.basename renderCommand outputDir remotionProjectDir overflow maxBuffer
        pretty command internalPath engine invoke runRemotionRender finalDownloadNameOf] in *.

Ltac rewrite_found :=
  repeat match goal with
         | Hf : bool_decide (_ ∈ _) = _ |- _ => rewrite Hf
         end.

(** ** The Invoker *)

Lemma internalPath_text (env : Env) (req : Request) (text : string) :
  JS.toString (compositionId req) = Some text ->
  Path.join [outputDir; uniqueFilename (uuid env) text] = internalPath env req.
Proof. intros H. unfold internalPath, outputPathOf, idText. by rewrite H. Qed.

Lemma command_text (env : Env) (req : Request) (text : string) :
  JS.toString (compositionId req) = Some text ->
  renderCommand text (internalPath env req) = command env req.
Proof. intros H. unfold command, idText. by rewrite H. Qed.

Lemma deliveryName_text (env : Env) (req : Request) (text : string) :
  JS.toString (compositionId req) = Some text ->
  finalDownloadNameOf text (clock env) = deliveryName env req.
Proof. intros H. unfold deliveryName, idText. by rewrite H. Qed.

(** The Invoker on a request whose compositionId has the string form that
    [Htext] gives. *)
Ltac invoke_start env req Htext :=
  unfold commandsRun, steps, jsonReplies, withinExec, reachesShell, rendered, invoke,
    runRemotionRender, template in *;
  rewrite ?Htext in *;
  unfold_prims; reduce;
  rewrite ?(command_text env req _ Htext) in *;
  change (shell env (command env req) remotionProjectDir ?f) with (engine env req f) in *.

(** The branches of [exec] and of the Invoker: a command with a NUL byte, a
    channel that overflows, a status that is not zero, an empty error
    channel, the marker word. *)
Ltac invoke_cases env req files :=
  destruct (Str.includes (command env req) Str.nul) eqn:?Hnul; reduce;
  [ | destruct (engine env req files) as [r files1] eqn:?Heng; reduce;
      destruct (overflow r) as [channel|] eqn:?Hover; reduce;
      [ | destruct (exitCode r =? 0) eqn:?Hexit; reduce;
          [ destruct (bool_decide (stderr r = EmptyString)) eqn:?Hempty; reduce;
            [ | destruct (Str.includes (Str.toLowerCase (stderr r)) "error") eqn:?Hmarker;
                reduce ]
          | ] ] ].

(** A compositionId without a string form stops the Invoker at once. *)
Lemma invoke_unprintable (env : Env) (req : Request) (files : gset string) :
  JS.toString (compositionId req) = None ->
  invoke env req files
  = (Thrown (mkError "Cannot convert object to primitive value" None None), fresh files).
Proof. intros H. unfold invoke, runRemotionRender, template, bind. by rewrite H. Qed.

(** The Invoker reads the disk and nothing else of the world it starts in,
    and it only appends to the trace. *)
Lemma invoke_frame (env : Env) (req : Request) (w : World) :
  runRemotionRender env (compositionId req) (internalPath env req) (inputProps req) w
  = (fst (invoke env req (fs w)),
     mkWorld (fs (snd (invoke env req (fs w)))) (headersSent w) (reply w)
       (trace w ++ trace (snd (invoke env req (fs w))))).
Proof.
  destruct w as [files sent answer events].
  destruct (JS.toString (compositionId req)) as [text|] eqn:Htext.
  - unfold runRemotionRender at 1. invoke_start env req Htext.
    invoke_cases env req files.
    all: by rewrite <- ?app_assoc.
  - rewrite invoke_unprintable by done.
    unfold runRemotionRender, template, bind. rewrite Htext. reduce.
    by rewrite app_nil_r.
Qed.

Lemma invoke_events (env : Env) (req : Request) (files : gset string) (ev : Event) :
  ev ∈ trace (snd (invoke env req files)) ->
  (exists lvl text args, ev = EvConsole lvl text args)
  \/ ev = EvExec (command env req) remotionProjectDir.
Proof.
  destruct (JS.toString (compositionId req)) as [text|] eqn:Htext.
  - invoke_start env req Htext. invoke_cases env req files.
    all: intros H; invert_trace H ltac:(first [by right | left; by repeat eexists]).
  - rewrite invoke_unprintable by done. intros H. by apply elem_of_nil in H.
Qed.

Lemma invoke_steps (env : Env) (req : Request) (files : gset string) :
  steps (snd (invoke env req files)) = if reachesShell env req then [SRender] else [].
Proof.
  destruct (JS.toString (compositionId req)) as [text|] eqn:Htext.
  - invoke_start env req Htext. invoke_cases env req files; done.
  - rewrite invoke_unprintable by done. unfold reachesShell. by rewrite Htext.
Qed.

Lemma invoke_commands (env : Env) (req : Request) (files : gset string) :
  commandsRun (snd (invoke env req files))
  = if reachesShell env req then [command env req] else [].
Proof.
  destruct (JS.toString (compositionId req)) as [text|] eqn:Htext.
  - invoke_start env req Htext. invoke_cases env req files; done.
  - rewrite invoke_unprintable by done. unfold reachesShell. by rewrite Htext.
Qed.

Lemma invoke_json (env : Env) (req : Request) (files : gset string) :
  jsonReplies (snd (invoke env req files)) = [].
Proof.
  destruct (JS.toString (compositionId req)) as [text|] eqn:Htext.
  - invoke_start env req Htext. invoke_cases env req files; done.
  - by rewrite invoke_unprintable by done.
Qed.

Lemma invoke_disk (env : Env) (req : Request) (files : gset string) :
  rendered env req files
  = if reachesShell env req then snd (engine env req files) else files.
Proof.
  destruct (JS.toString (compositionId req)) as [text|] eqn:Htext.
  - invoke_start env req Htext. invoke_cases env req files; done.
  - unfold rendered. rewrite invoke_unprintable by done. unfold reachesShell.
    by rewrite Htext.
Qed.


(** What the Invoker returns or raises, when the compositionId has a string
    form. *)
Lemma invoke_outcome (env : Env) (req : Request) (files : gset string) (text : string) :
  JS.toString (compositionId req) = Some text ->
  let r := fst (engine env req files) in
  fst (invoke env req files) =
    if Str.includes (command env req) Str.nul then
      Thrown (mkError ("The argument 'command' must be a string without null bytes. Received "
                         +:+ inspect env (command env req)) None None)
    else
      match overflow r with
      | Some channel =>
          Thrown (mkError (channelName channel +:+ " maxBuffer length exceeded")
                          (Some (Str.sliceTo maxBuffer (stdout r)))
                          (Some (Str.sliceTo maxBuffer (stderr r))))
      | None =>
          if exitCode r =? 0 then
            if Str.includes (Str.toLowerCase (stderr r)) "error" then
              Thrown (mkError ("Remotion rendering failed. Stderr: " +:+ stderr r) None None)
            else Returned true
          else
            Thrown (mkError ("Command failed: " +:+ command env req +:+ Str.newline
                               +:+ stderr r) (Some (stdout r)) (Some (stderr r)))
      end.
Proof.
  intros Htext r. subst r. invoke_start env req Htext. invoke_cases env req files.
  all: try done.
  apply bool_decide_eq_true in Hempty. by rewrite Hempty.
Qed.

Lemma reachesShell_text (env : Env) (req : Request) :
  reachesShell env req = true ->
  exists text, JS.toString (compositionId req) = Some text
               /\ Str.includes (command env req) Str.nul = false.
Proof.
  unfold reachesShell. destruct (JS.toString (compositionId req)) as [text|]; [|done].
  intros H. exists text. split; [done|]. by apply negb_true_iff.
Qed.

Lemma withinExec_inv (env : Env) (req : Request) (files : gset string) :
  withinExec env req files = true ->
  reachesShell env req = true /\ overflow (fst (engine env req files)) = None.
Proof.
  unfold withinExec. intros H. apply andb_true_iff in H as [H1 H2].
  split; [done|]. by destruct (overflow _).
Qed.

(** The Invoker returns only for a compositionId that has a string form. *)
Lemma invoke_returned_text (env : Env) (req : Request) (files : gset string) (b : bool) :
  fst (invoke env req files) = Returned b ->
  exists text, JS.toString (compositionId req) = Some text.
Proof.
  destruct (JS.toString (compositionId req)) as [text|] eqn:Htext; [by exists text|].
  by rewrite invoke_unprintable by done.
Qed.

(** ** The handler *)

(** The handler on a request whose compositionId is truthy ([Hid]) and has
    the string form that [Htext] gives, up to the call of the Invoker. *)
Ltac start env req Hid Htext :=
  unfold commandsRun, steps, jsonReplies, unlinkAttempted, rendered, final, run, handler,
    template in *;
  rewrite ?Hid, ?Htext in *;
  unfold_prims; reduce;
  rewrite ?(internalPath_text env req _ Htext) in *;
  rewrite ?(deliveryName_text env req _ Htext) in *.

(** The operations that were started run once the handler has returned. *)
Ltac run_started := unfold bind, ret in *; reduce.

Ltac on_unlink env :=
  destruct (unlinkDenied env) eqn:?Hdenied; reduce.

(** The result of the Invoker, with what is known of the world it leaves,
    then the branches of the handler: the file is there or not, the fate of
    the transfer, the fate of the deletion. *)
Ltac handler_cases env req files :=
  rewrite ?invoke_frame in *; reduce;
  pose proof (invoke_events env req files) as Hevents;
  pose proof (invoke_steps env req files) as Hsteps;
  pose proof (invoke_commands env req files) as Hcommands;
  pose proof (invoke_json env req files) as Hjson;
  unfold steps, commandsRun, jsonReplies in Hsteps, Hcommands, Hjson;
  destruct (invoke env req files) as [[result|error] wi] eqn:Hinv;
  repeat match goal with
         | Hx : ?T |- _ =>
             lazymatch T with
             | invoke env req files = _ => fail
             | context [invoke env req files] => rewrite Hinv in Hx
             end
         end;
  reduce; run_started;
  (destruct (bool_decide (internalPath env req ∈ fs wi)) eqn:?Hfound; reduce;
   run_started; rewrite_found; reduce);
  [ destruct (transport env) as [|[|] ?code] eqn:?Htransport; reduce; on_unlink env
  | | on_unlink env | ];
  rewrite <- ?app_assoc in *; reduce;
  rewrite ?omap_app, ?Hsteps, ?Hcommands, ?Hjson; reduce.

(** A request that stops before the Invoker: [Hid] says that its
    compositionId is falsy, or [Hid] that it is truthy and [Hnone] that it
    has no string form. *)
Ltac start_stopped Hid Hnone :=
  unfold commandsRun, steps, jsonReplies, unlinkAttempted, rendered, final, run, handler,
    template in *;
  rewrite ?Hid, ?Hnone in *;
  unfold_prims; reduce.

(** Membership of an event in the trace of a request, around the events of
    the Invoker. *)
Ltac in_run_trace :=
  solve [ repeat first [ apply list_elem_of_here | apply list_elem_of_further
                       | apply elem_of_app; right ] ].

(** All the ways an event can be in the trace of a request. *)
Ltac invert_run_trace H tac :=
  repeat (apply elem_of_cons in H as [H|H]; [try discriminate H; simplify_eq; tac|]);
  try (apply elem_of_app in H as [H|H];
       [ match goal with
         | Hevents : forall ev, ev ∈ trace _ -> _ |- _ =>
             apply Hevents in H as [(?&?&?&H)|H]; try discriminate H; simplify_eq; tac
         end
       | invert_trace H tac ]);
  try (by apply elem_of_nil in H).

(** C4. A request whose compositionId is missing or empty (any falsy value)
    gets the 400 reply and nothing else happens: the only effect is that
    reply, so no token is drawn, no path allocated, the engine is not run,
    and the files on disk are the ones that were there. *)
Theorem invalid_request_rejected (env : Env) (req : Request) (files : gset string) :
  JS.truthy (compositionId req) = false ->
  run env req files =
    (Returned tt,
     mkWorld files true (Some (JsonReply 400 (msgBody "compositionId is required.")))
       [EvJson 400 (msgBody "compositionId is required.")]).
Proof.
  intros H. unfold run, handler. rewrite H. reflexivity.
Qed.

(** C1, amended. Once a request has reached rendering (its compositionId is
    truthy and has a string form), the handler and the operations it starts
    raise nothing; the deletion of internalPath is attempted after every
    successful render, whatever the fate of the delivery, and after every
    failed render that left a file; a failed deletion is logged and leaves
    the reply as it was decided; and when the deletion is not refused no
    file remains at internalPath. *)
Theorem cleanup_on_every_exit (env : Env) (req : Request) (files : gset string)
    (text : string) :
  JS.truthy (compositionId req) = true ->
  JS.toString (compositionId req) = Some text ->
  let p := internalPath env req in
  let w := final env req files in
  fst (run env req files) = Returned tt
  /\ (fst (invoke env req files) = Returned true -> unlinkAttempted p w)
  /\ (forall e, fst (invoke env req files) = Thrown e ->
        p ∈ rendered env req files -> unlinkAttempted p w)
  /\ (forall d, fst (run (withUnlink d env) req files) = Returned tt
        /\ reply (final (withUnlink d env) req files) = reply w
        /\ headersSent (final (withUnlink d env) req files) = headersSent w)
  /\ (forall code, EvUnlink p (Some code) ∈ trace w ->
        exists logged, EvConsole LError logged [ASysError code] ∈ trace w)
  /\ (unlinkDenied env = None -> p ∉ fs w).
Proof.
  intros H Htext p w. subst p w.
  split_and!; [| | | intros d | |].
  all: start env req H Htext.
  4: change (runRemotionRender (withUnlink d env)) with (runRemotionRender env).
  all: handler_cases env req files.
  all: try done.
  all: try solve [intros; eexists; in_run_trace].
  all: try solve [destruct d; reduce; by split_and!].
  all: try solve [intros _; absent Hfound].
  all: try solve [intros e _ Hin; found_in Hfound; done].
  all: intros c Hin; invert_run_trace Hin ltac:(eexists; in_run_trace).
Qed.

(** C3, amended. The Invoker fails exactly when the engine is not run
    within the limits of [exec] (the compositionId has no string form, the
    command holds a NUL byte, or a channel goes past maxBuffer), or ends with
    a non-zero status, or its error channel contains the word error in any
    casing; when the engine was run within those limits the failure carries
    the text of the error channel.  It succeeds exactly when the engine was
    run within the limits, the status is zero and the word is absent,
    whatever else the error channel holds. *)
Theorem invoker_classification (env : Env) (req : Request) (files : gset string) :
  let r := fst (engine env req files) in
  let marked := Str.includes (Str.toLowerCase (stderr r)) "error" in
  ((exists e, fst (invoke env req files) = Thrown e) <->
     (withinExec env req files = false \/ exitCode r <> 0 \/ marked = true))
  /\ (forall e, withinExec env req files = true ->
        fst (invoke env req files) = Thrown e ->
        Str.includes (message e) (stderr r) = true)
  /\ (fst (invoke env req files) = Returned true <->
        (withinExec env req files = true /\ exitCode r = 0 /\ marked = false))
  /\ (marked = true <->
        exists a m b, stderr r = a +:+ m +:+ b /\ Str.toLowerCase m = "error").
Proof.
  intros r marked. subst r marked.
  split_and!; [| | |apply includes_lower_spec].
  all: destruct (JS.toString (compositionId req)) as [text|] eqn:Htext;
    [ invoke_start env req Htext; invoke_cases env req files
    | rewrite invoke_unprintable by done; unfold withinExec, reachesShell;
      rewrite Htext; reduce ].
  all: try match type of Hexit with
             | _ = true => apply Z.eqb_eq in Hexit
             | _ = false => apply Z.eqb_neq in Hexit
             end.
  all: try (apply bool_decide_eq_true in Hempty; rewrite ?Hempty;
            change (Str.includes (Str.toLowerCase EmptyString) "error") with false).
  all: try solve
    [ split;
      [ intros [e He]; first [discriminate He | by left | right; by left | right; by right]
      | intros [Hw | [Hn | Hm]]; first [done | by eexists] ]
    | split;
      [ intros He; first [discriminate He | by split_and!]
      | intros (Hw & Hz & Hm); first [done | congruence] ] ].
  all: intros e Hw He; first [discriminate Hw | discriminate He | injection He as <-].
  all: reduce; rewrite <- ?app_assoc_s; apply includes_suffix.
Qed.

(** C5, amended. When the engine has been run and ends with a non-zero
    status, the caller gets a 500 reply; its error field contains the text
    of the error channel when neither channel went past maxBuffer; a file
    left at internalPath is unlinked, and none remains there unless that
    deletion is refused. *)
Theorem engine_failure_reported (env : Env) (req : Request) (files : gset string) :
  JS.truthy (compositionId req) = true ->
  reachesShell env req = true ->
  exitCode (fst (engine env req files)) <> 0 ->
  let p := internalPath env req in
  let w := final env req files in
  let r := fst (engine env req files) in
  fst (run env req files) = Returned tt
  /\ (exists reason,
        reply w = Some (JsonReply 500 (renderFailedBody reason))
        /\ (overflow r = None -> Str.includes reason (stderr r) = true))
  /\ (p ∈ snd (engine env req files) -> unlinkAttempted p w)
  /\ (unlinkDenied env = None -> p ∉ fs w).
Proof.
  intros H Hshell Hexit p w r. subst p w r.
  pose proof (invoke_disk env req files) as Hdisk. rewrite Hshell in Hdisk.
  destruct (reachesShell_text env req Hshell) as (text & Htext & Hnul).
  pose proof (invoke_outcome env req files text Htext) as Hout. cbn zeta in Hout.
  rewrite Hnul in Hout. apply Z.eqb_neq in Hexit. rewrite Hexit in Hout.
  rewrite <- Hdisk. clear Hdisk.
  destruct (overflow (fst (engine env req files))) as [channel|] eqn:Hover.
  all: start env req H Htext; handler_cases env req files; try discriminate Hout.
  all: injection Hout as ->; reduce.
  all: split_and!; try done.
  all: try solve [eexists; split; [done|]; intros _; rewrite <- ?app_assoc_s;
                  apply includes_suffix].
  all: try solve [eexists; by split].
  all: try solve [intros; eexists; in_run_trace].
  all: try solve [intros _; absent Hfound].
  all: intros Hin; found_in Hfound; done.
Qed.

(** C7. After a successful render whose delivery fails, the handler and the
    operations it started raise nothing.  When nothing has been sent yet the
    caller gets the 500 reply of a delivery error, the only reply written,
    which is not the reply of a render failure; when the response was
    already under way the failure is logged, no reply is written, and the
    caller keeps the interrupted transfer; either way the deletion of
    internalPath follows. *)
Theorem delivery_failure_handling (env : Env) (req : Request) (files : gset string) :
  JS.truthy (compositionId req) = true ->
  fst (invoke env req files) = Returned true ->
  let p := internalPath env req in
  let n := deliveryName env req in
  let w := final env req files in
  (p ∉ rendered env req files \/ (exists code, transport env = Broken false code) ->
     fst (run env req files) = Returned tt
     /\ (exists code, EvDownload p n (Some code) ∈ trace w)
     /\ reply w = Some (JsonReply 500 (msgBody "Error sending the rendered file."))
     /\ jsonReplies w = [(500, msgBody "Error sending the rendered file.")]
     /\ (forall reason, reply w <> Some (JsonReply 500 (renderFailedBody reason)))
     /\ unlinkAttempted p w)
  /\ (forall code,
        p ∈ rendered env req files -> transport env = Broken true code ->
        fst (run env req files) = Returned tt
        /\ EvDownload p n (Some code) ∈ trace w
        /\ reply w = Some (FileReply p (Path.basename n) false)
        /\ jsonReplies w = []
        /\ (forall status body, EvJson status body ∉ trace w)
        /\ (exists logged, EvConsole LError logged [ASysError code] ∈ trace w)
        /\ unlinkAttempted p w).
Proof.
  intros H Hok p n w. subst p n w.
  destruct (invoke_returned_text env req files true Hok) as [text Htext].
  start env req H Htext. handler_cases env req files; try discriminate Hok.
  all: split; [intros [Hout | [c Hc]] | intros c Hin Hc].
  all: try solve [found_in Hfound; done].
  all: try congruence.
  all: simplify_eq.
  all: split_and!; try done.
  all: try solve [eexists; in_run_trace].
  all: try solve [in_run_trace].
  all: intros st body Hev; invert_run_trace Hev idtac.
Qed.

(** C8, amended. After a successful render the name handed to the download
    is made of the compositionId, a dash, the timestamp in decimal and the
    extension mp4; the caller is offered the last segment of that name, which
    is the whole name when the compositionId has no path separator, and is
    offered it with the file at internalPath whenever a transfer starts.  The
    name takes no part in the storage of the artifact: with any other
    timestamp the path, the command and the files left on disk are the
    same. *)
Theorem delivery_name_presentation (env : Env) (req : Request) (files : gset string)
    (text : string) :
  JS.truthy (compositionId req) = true ->
  JS.toString (compositionId req) = Some text ->
  fst (invoke env req files) = Returned true ->
  let p := internalPath env req in
  let n := text +:+ "-" +:+ pretty (clock env) +:+ ".mp4" in
  let w := final env req files in
  (exists err, EvDownload p n err ∈ trace w)
  /\ (forall path name complete,
        reply w = Some (FileReply path name complete) ->
        path = p /\ name = Path.basename n)
  /\ (p ∈ rendered env req files ->
      (forall code, transport env <> Broken false code) ->
      exists complete, reply w = Some (FileReply p (Path.basename n) complete))
  /\ (Path.whole "/"%char text -> Path.basename n = n)
  /\ (forall t,
        internalPath (withClock t env) req = p
        /\ command (withClock t env) req = command env req
        /\ fs (final (withClock t env) req files) = fs w).
Proof.
  intros H Htext Hok p n w. subst p n w.
  assert (text +:+ "-" +:+ pretty (clock env) +:+ ".mp4" = deliveryName env req) as ->.
  { by rewrite <- (deliveryName_text env req text Htext). }
  split_and!; [| | | | intros t].
  4:{ intros Hwhole. rewrite <- (deliveryName_text env req text Htext).
      unfold finalDownloadNameOf. apply basename_whole.
      - destruct text; done.
      - apply whole_app; [done|]. apply (whole_app _ "-"); [done|].
        apply whole_app; [apply pretty_Z_whole | done]. }
  all: start env req H Htext.
  4: change (runRemotionRender (withClock t env)) with (runRemotionRender env).
  all: handler_cases env req files; try discriminate Hok.
  all: try solve [eexists; in_run_trace].
  all: try solve [intros path name complete Hr; by simplify_eq].
  all: try solve [intros Hin Hsent; first [by eexists | found_in Hfound; done
                                          | by destruct (Hsent code)]].
  all: by split_and!.
Qed.

(** C10, amended. When the engine has been run within the limits of [exec],
    the Invoker reports success on a zero status without the marker word
    even when the engine left no file at internalPath: the handler never
    probes the path before delivering, the download then fails, and the
    caller gets the 500 reply of a delivery error, not that of a render
    failure. *)
Theorem missing_output_surfaces_at_delivery (env : Env) (req : Request)
    (files : gset string) :
  JS.truthy (compositionId req) = true ->
  withinExec env req files = true ->
  exitCode (fst (engine env req files)) = 0 ->
  Str.includes (Str.toLowerCase (stderr (fst (engine env req files)))) "error" = false ->
  internalPath env req ∉ snd (engine env req files) ->
  let w := final env req files in
  fst (invoke env req files) = Returned true
  /\ fst (run env req files) = Returned tt
  /\ (exists code,
        EvDownload (internalPath env req) (deliveryName env req) (Some code) ∈ trace w)
  /\ reply w = Some (JsonReply 500 (msgBody "Error sending the rendered file."))
  /\ jsonReplies w = [(500, msgBody "Error sending the rendered file.")]
  /\ (forall reason, reply w <> Some (JsonReply 500 (renderFailedBody reason)))
  /\ (forall q found, EvExistsSync q found ∉ trace w).
Proof.
  intros H Hwithin Hexit Hmarker Hout w. subst w.
  destruct (withinExec_inv env req files Hwithin) as [Hshell Hover].
  pose proof (invoke_disk env req files) as Hdisk. rewrite Hshell in Hdisk.
  destruct (reachesShell_text env req Hshell) as (text & Htext & Hnul).
  pose proof (invoke_outcome env req files text Htext) as Hres. cbn zeta in Hres.
  apply Z.eqb_eq in Hexit. rewrite Hnul, Hover, Hexit, Hmarker in Hres.
  rewrite <- Hdisk in Hout. clear Hdisk.
  start env req H Htext. handler_cases env req files; try discriminate Hres.
  all: try solve [found_in Hfound; done].
  split_and!; try done.
  - eexists; in_run_trace.
  - intros q found Hev. invert_run_trace Hev idtac.
Qed.

(** The handler unlinks nothing but the path of its own request. *)
Lemma unlink_only_own_path (env : Env) (req : Request) (files : gset string)
    (q : string) (err : option string) :
  EvUnlink q err ∈ trace (final env req files) -> q = internalPath env req.
Proof.
  destruct (JS.truthy (compositionId req)) eqn:H.
  - destruct (JS.toString (compositionId req)) as [text|] eqn:Htext.
    + start env req H Htext. handler_cases env req files.
      all: intros Hev; invert_run_trace Hev idtac; done.
    + start_stopped H Htext. intros Hev. invert_trace Hev idtac.
  - start_stopped H H. intros Hev. invert_trace Hev idtac.
Qed.

(** The files the Invoker left, other than the artifact, are still there. *)
Lemma other_files_kept (env : Env) (req : Request) (files : gset string) (q : string) :
  JS.truthy (compositionId req) = true ->
  q <> internalPath env req ->
  q ∈ rendered env req files -> q ∈ fs (final env req files).
Proof.
  intros H. destruct (JS.toString (compositionId req)) as [text|] eqn:Htext.
  - start env req H Htext. handler_cases env req files.
    all: intros Hq Hin.
    all: first [ exact Hin
               | apply elem_of_difference; split; [exact Hin | by rewrite elem_of_singleton] ].
  - unfold rendered. rewrite invoke_unprintable by done. by start_stopped H Htext.
Qed.

(** A request that reaches rendering runs the command of the request if it
    gets as far as the shell, and no command at all otherwise. *)
Lemma commands_of_valid_run (env : Env) (req : Request) (files : gset string) :
  JS.truthy (compositionId req) = true ->
  commandsRun (final env req files)
  = if reachesShell env req then [command env req] else [].
Proof.
  intros H. destruct (JS.toString (compositionId req)) as [text|] eqn:Htext.
  - start env req H Htext. handler_cases env req files.
    all: by destruct (reachesShell env req).
  - unfold reachesShell. rewrite Htext. by start_stopped H Htext.
Qed.

(** C6, amended. Two requests whose tokens differ get different file names;
    when in each file name no [..] undoes the segment that holds the token,
    each internalPath begins with the output directory followed by the token
    of its request, and the two paths differ.  A file name whose token
    segment is undone gets a path that does not depend on the token.  A
    request unlinks no path but its own internalPath, and leaves every other
    file that was there after rendering. *)
Theorem distinct_paths_when_token_kept (e1 e2 : Env) (r1 r2 : Request) :
  Path.isAbsolute __dirname = true ->
  Uuid.isUuid (uuid e1) = true ->
  Uuid.isUuid (uuid e2) = true ->
  uuid e1 <> uuid e2 ->
  Path.keepsHead (uniqueFilename (uuid e1) (idText r1)) = true ->
  Path.keepsHead (uniqueFilename (uuid e2) (idText r2)) = true ->
  uniqueFilename (uuid e1) (idText r1) <> uniqueFilename (uuid e2) (idText r2)
  /\ Str.startsWith (internalPath e1 r1) (outputDir +:+ "/" +:+ uuid e1) = true
  /\ Str.startsWith (internalPath e2 r2) (outputDir +:+ "/" +:+ uuid e2) = true
  /\ internalPath e1 r1 <> internalPath e2 r2
  /\ (forall text,
        Path.keepsHead (uniqueFilename (uuid e1) text) = false ->
        outputPathOf (uuid e1) text = outputPathOf (uuid e2) text)
  /\ (forall (e : Env) (r : Request) files q err,
        EvUnlink q err ∈ trace (final e r files) -> q = internalPath e r)
  /\ (forall (e : Env) (r : Request) files q,
        JS.truthy (compositionId r) = true -> q <> internalPath e r ->
        q ∈ rendered e r files -> q ∈ fs (final e r files)).
Proof.
  intros Habs Hu1 Hu2 Hne Hk1 Hk2.
  destruct (outputPath_under_token _ _ Habs Hu1 Hk1) as [tail1 Hp1].
  destruct (outputPath_under_token _ _ Habs Hu2 Hk2) as [tail2 Hp2].
  unfold internalPath. rewrite Hp1, Hp2.
  split_and!.
  - intros Heq. by apply Hne, (uniqueFilename_token _ _ _ _ Hu1 Hu2 Heq).
  - apply startsWith_spec. by exists tail1.
  - apply startsWith_spec. by exists tail2.
  - intros Heq. apply app_inj_length in Heq as [Heq _].
    + by apply String.app_inj, String.app_inj in Heq.
    + rewrite !length_app_s. by rewrite (isUuid_length _ Hu1), (isUuid_length _ Hu2).
  - intros text. by apply outputPath_without_token.
  - intros e r files q err. apply unlink_only_own_path.
  - intros e r files q. apply other_files_kept.
Qed.


(** * Further properties of the code *)

(** ** The escaping of the input properties *)

Lemma readWord_escaped (s : string) :
  Sh.readWord true
    (Str.replaceAll "039"%char (Str.squote +:+ Str.backslash +:+ Str.squote +:+ Str.squote) s
       +:+ Str.squote)
  = Some s.
Proof.
  induction s as [|c s IH]; [reflexivity|].
  cbn [Str.replaceAll]. case_decide as Hc.
  - subst c. rewrite app_assoc_s.
    change ((Str.squote +:+ Str.backslash +:+ Str.squote +:+ Str.squote) +:+ ?r)
      with (String "039"%char (String "092"%char (String "039"%char (String "039"%char r)))).
    cbn [Sh.readWord]. rewrite !decide_True by done. rewrite !decide_False by done.
    cbn [Sh.readWord]. rewrite !decide_True by done. by rewrite IH.
  - rewrite app_cons. cbn [Sh.readWord]. rewrite decide_False by done. by rewrite IH.
Qed.

(** X1. Written between single quotes, the escaped properties string is a
    word that a POSIX shell reads back as the serialised properties: the
    escaping of line 44 loses and adds nothing. *)
Theorem escaped_props_read_back (inputProps : JS.value) :
  Sh.readWord false (Sh.singleQuoted (escapedPropsString inputProps))
  = Some (propsString inputProps).
Proof.
  unfold Sh.singleQuoted, escapedPropsString.
  change (Str.squote +:+ ?r) with (String "039"%char r).
  cbn [Sh.readWord]. rewrite decide_True by done. apply readWord_escaped.
Qed.

(** X2. Absent or falsy input properties (undefined, null, false, 0, the
    empty string) are serialised as the empty object, and that text needs no
    escaping. *)
Theorem falsy_props_serialise_as_empty_object (inputProps : JS.value) :
  JS.truthy inputProps = false ->
  propsString inputProps = "{}" /\ escapedPropsString inputProps = "{}".
Proof.
  intros H. unfold escapedPropsString, propsString.
  assert (JS.orElse inputProps (JS.JObj []) = JS.JObj []) as ->.
  { unfold JS.orElse. destruct inputProps; [by rewrite H | done]. }
  by split.
Qed.

(** ** The course of a request *)

(** The Invoker returns only when the request got as far as the shell. *)
Lemma invoke_returned_shell (env : Env) (req : Request) (files : gset string) (b : bool) :
  fst (invoke env req files) = Returned b -> reachesShell env req = true.
Proof.
  intros Hok. destruct (invoke_returned_text env req files b Hok) as [text Htext].
  pose proof (invoke_outcome env req files text Htext) as Hout. cbn zeta in Hout.
  unfold reachesShell. rewrite Htext.
  destruct (Str.includes (command env req) Str.nul); [congruence | done].
Qed.

(** How a request that reaches rendering ends, given what the Invoker did. *)
Lemma run_summary (env : Env) (req : Request) (files : gset string) (text : string) :
  JS.truthy (compositionId req) = true ->
  JS.toString (compositionId req) = Some text ->
  let p := internalPath env req in
  let w := final env req files in
  let left := bool_decide (p ∈ rendered env req files) in
  let failsUnsent :=
    negb left || match transport env with Broken false _ => true | _ => false end in
  fst (run env req files) = Returned tt
  /\ headersSent w = true
  /\ reply w =
       Some (match fst (invoke env req files) with
             | Returned _ =>
                 if failsUnsent
                 then JsonReply 500 (msgBody "Error sending the rendered file.")
                 else FileReply p (Path.basename (deliveryName env req))
                        (match transport env with Delivered => true | _ => false end)
             | Thrown e => JsonReply 500 (renderFailedBody (message e))
             end)
  /\ jsonReplies w =
       match fst (invoke env req files) with
       | Returned _ =>
           if failsUnsent then [(500, msgBody "Error sending the rendered file.")] else []
       | Thrown e => [(500, renderFailedBody (message e))]
       end
  /\ fs w =
       match unlinkDenied env with
       | None => rendered env req files ∖ {[p]}
       | Some _ => rendered env req files
       end
  /\ steps w =
       (if reachesShell env req then [SRender] else [])
       ++ match fst (invoke env req files) with
          | Returned _ =>
              [SDeliver] ++ (if failsUnsent then [SReply] else []) ++ [SCleanup]
          | Thrown _ => [SProbe; SReply] ++ (if left then [SCleanup] else [])
          end.
Proof.
  intros H Htext p w left failsUnsent. subst p w left failsUnsent.
  start env req H Htext. handler_cases env req files.
  all: split_and!; try done.
  all: destruct (unlinkDenied env); [done|].
  all: found_in Hfound; symmetry; apply difference_disjoint_L.
  all: by apply disjoint_singleton_r.
Qed.



(** X5. Which requests are answered.  A request whose compositionId is
    falsy or has a string form is answered once: the handler and the
    operations it starts raise nothing, a response has been started when they
    end, and the JSON replies written are exactly the reply the caller holds
    if that is a JSON reply, and none if it is a file.  A request whose
    truthy compositionId has no string form is not answered: the handler
    raises after the token has been drawn, with nothing written and the disk
    as it was. *)
Theorem requests_answered_once (env : Env) (req : Request) (files : gset string) :
  let w := final env req files in
  (JS.truthy (compositionId req) = false \/ JS.toString (compositionId req) <> None ->
     fst (run env req files) = Returned tt
     /\ headersSent w = true
     /\ (exists answer, reply w = Some answer /\
           jsonReplies w =
             match answer with
             | JsonReply status body => [(status, body)]
             | FileReply _ _ _ => []
             end))
  /\ (JS.truthy (compositionId req) = true -> JS.toString (compositionId req) = None ->
        run env req files
        = (Thrown (mkError "Cannot convert object to primitive value" None None),
           mkWorld files false None [EvUuid (uuid env)])).
Proof.
  intros w. subst w. split.
  - intros Hcase. destruct (JS.truthy (compositionId req)) eqn:H.
    + destruct Hcase as [|Hsome]; [done|].
      destruct (JS.toString (compositionId req)) as [text|] eqn:Htext; [|done].
      destruct (run_summary env req files text H Htext)
        as (Hrun & Hsent & Hreply & Hjson & _).
      split_and!; [done | done |]. eexists. split; [exact Hreply|]. rewrite Hjson.
      destruct (fst (invoke env req files)); [|done]. by destruct (_ || _).
    + start_stopped H H. split_and!; [done | done | by eexists].
  - intros H Hnone. by start_stopped H Hnone.
Qed.

(** X6. The status of the reply: 400 exactly for a falsy compositionId, and
    no JSON reply has a status other than 400 and 500. *)
Theorem reply_status (env : Env) (req : Request) (files : gset string) :
  let w := final env req files in
  ((exists body, reply w = Some (JsonReply 400 body)) <->
     JS.truthy (compositionId req) = false)
  /\ (forall status body, reply w = Some (JsonReply status body) ->
        status = 400 \/ status = 500).
Proof.
  intros w. subst w. destruct (JS.truthy (compositionId req)) eqn:H.
  - destruct (JS.toString (compositionId req)) as [text|] eqn:Htext.
    + destruct (run_summary env req files text H Htext) as (_ & _ & Hreply & _).
      rewrite Hreply.
      destruct (fst (invoke env req files)); [destruct (_ || _)|].
      all: split; [split; [by intros [body Hb] | done] | intros st body Hr].
      all: first [discriminate Hr | injection Hr as <- _; by right].
    + start_stopped H Htext. split; [split; [by intros [body Hb] | done] | done].
  - start_stopped H H.
    split; [split; [done | by eexists] | intros st body [= <- _]; by left].
Qed.

(** X7. The request that goes well: after a successful render whose file is
    there and whose transfer completes, the caller holds the whole file under
    the last segment of the delivery name, no JSON reply is written, and
    unless the deletion is refused the disk is what was there after
    rendering minus the artifact. *)
Theorem successful_delivery (env : Env) (req : Request) (files : gset string) :
  JS.truthy (compositionId req) = true ->
  fst (invoke env req files) = Returned true ->
  internalPath env req ∈ rendered env req files ->
  transport env = Delivered ->
  let p := internalPath env req in
  let w := final env req files in
  fst (run env req files) = Returned tt
  /\ reply w = Some (FileReply p (Path.basename (deliveryName env req)) true)
  /\ jsonReplies w = []
  /\ steps w = [SRender; SDeliver; SCleanup]
  /\ (unlinkDenied env = None -> fs w = rendered env req files ∖ {[p]}).
Proof.
  intros H Hok Hleft Hsent p w. subst p w.
  destruct (invoke_returned_text env req files true Hok) as [text Htext].
  destruct (run_summary env req files text H Htext)
    as (Hrun & _ & Hreply & Hjson & Hfs & Hsteps).
  rewrite Hok, Hsent in *. rewrite (invoke_returned_shell env req files true Hok) in Hsteps.
  rewrite bool_decide_eq_true_2 in * by done.
  split_and!; try done. intros Hd. by rewrite Hd in Hfs.
Qed.

(** X8. What a request does to the disk: nothing when it is rejected or
    when its compositionId has no string form; otherwise the disk at the end
    is what was there after rendering, minus internalPath if the deletion is
    not refused.  The handler itself creates no file. *)
Theorem disk_after_request (env : Env) (req : Request) (files : gset string) :
  fs (final env req files) =
    if JS.truthy (compositionId req) then
      match JS.toString (compositionId req) with
      | Some _ =>
          match unlinkDenied env with
          | None => rendered env req files ∖ {[internalPath env req]}
          | Some _ => rendered env req files
          end
      | None => files
      end
    else files.
Proof.
  destruct (JS.truthy (compositionId req)) eqn:H.
  - destruct (JS.toString (compositionId req)) as [text|] eqn:Htext.
    + by destruct (run_summary env req files text H Htext) as (_&_&_&_&?&_).
    + by start_stopped H Htext.
  - by start_stopped H H.
Qed.

(** The informational channel, kept within maxBuffer, does not change what
    the Invoker returns or the message it raises. *)
Lemma overflow_ignores_stdout (r : ProcResult) (out : string) :
  (Str.byteLength (stdout r) <=? maxBuffer)%N = true ->
  (Str.byteLength out <=? maxBuffer)%N = true ->
  overflow (mkProc (exitCode r) out (stderr r) (firstFull r)) = overflow r.
Proof.
  intros H1 H2. unfold overflow. cbn [stdout stderr firstFull].
  apply N.leb_le in H1, H2.
  rewrite (proj2 (N.ltb_ge maxBuffer (Str.byteLength out)) H2).
  by rewrite (proj2 (N.ltb_ge maxBuffer (Str.byteLength (stdout r))) H1).
Qed.

(** X9. The informational channel decides nothing as long as it stays within
    maxBuffer: whatever the engine prints on it within that limit, the
    Invoker classifies the run the same way and the reply, the disk and the
    stages of the request are the same. *)
Theorem stdout_is_not_consulted (env : Env) (req : Request) (files : gset string)
    (f : string -> string) :
  (Str.byteLength (stdout (fst (engine env req files))) <=? maxBuffer)%N = true ->
  (Str.byteLength (f (stdout (fst (engine env req files)))) <=? maxBuffer)%N = true ->
  let w := final env req files in
  let w' := final (withStdout f env) req files in
  reply w' = reply w /\ headersSent w' = headersSent w /\ fs w' = fs w
  /\ steps w' = steps w
  /\ (fst (invoke (withStdout f env) req files) = Returned true <->
      fst (invoke env req files) = Returned true).
Proof.
  intros Hout Hout' w w'. subst w w'.
  assert (engine (withStdout f env) req files
          = (mkProc (exitCode (fst (engine env req files)))
               (f (stdout (fst (engine env req files))))
               (stderr (fst (engine env req files)))
               (firstFull (fst (engine env req files))),
             snd (engine env req files))) as Heng.
  { unfold engine, withStdout. cbn [shell].
    change (command (mkEnv _ _ _ _ _ _) req) with (command env req).
    by destruct (shell env _ _ files). }
  assert (reachesShell (withStdout f env) req = reachesShell env req) as Hshell by done.
  assert (rendered (withStdout f env) req files = rendered env req files) as Hdisk.
  { by rewrite !invoke_disk, Hshell, Heng. }
  destruct (JS.toString (compositionId req)) as [text|] eqn:Htext.
  - assert (match fst (invoke (withStdout f env) req files),
                  fst (invoke env req files) with
            | Returned b', Returned b => b' = b
            | Thrown e', Thrown e => message e' = message e
            | _, _ => False
            end) as Hsame.
    { rewrite !(invoke_outcome _ req files text Htext). cbn zeta.
      change (command (withStdout f env) req) with (command env req).
      change (inspect (withStdout f env)) with (inspect env).
      rewrite Heng. cbn [fst exitCode stderr stdout].
      rewrite overflow_ignores_stdout by done.
      destruct (Str.includes (command env req) Str.nul); [done|].
      destruct (overflow _); [done|].
      destruct (exitCode _ =? 0); [|done].
      by destruct (Str.includes _ "error"). }
    destruct (JS.truthy (compositionId req)) eqn:H.
    + destruct (run_summary env req files text H Htext)
        as (_ & Hsent & Hreply & _ & Hfs & Hsteps).
      destruct (run_summary (withStdout f env) req files text H Htext)
        as (_ & Hsent' & Hreply' & _ & Hfs' & Hsteps').
      rewrite Hsent, Hsent', Hreply, Hreply', Hfs, Hfs', Hsteps, Hsteps', Hdisk, Hshell.
      change (internalPath (withStdout f env) req) with (internalPath env req).
      change (deliveryName (withStdout f env) req) with (deliveryName env req).
      change (transport (withStdout f env)) with (transport env).
      change (unlinkDenied (withStdout f env)) with (unlinkDenied env).
      destruct (fst (invoke (withStdout f env) req files)) as [b'|e'],
        (fst (invoke env req files)) as [b|e]; try done.
      * by subst b'.
      * by rewrite Hsame.
    + split_and!; [by start_stopped H H ..|].
      destruct (fst (invoke (withStdout f env) req files)) as [b'|e'],
        (fst (invoke env req files)) as [b|e]; try done.
      by subst b'.
  - rewrite !invoke_unprintable by done.
    destruct (JS.truthy (compositionId req)) eqn:H; by start_stopped H Htext.
Qed.

(** X10. The input properties decide nothing: with any other properties the
    command run, the reply, the disk and the stages of the request are the
    same; they only appear in the log. *)
Theorem props_are_not_consulted (env : Env) (req : Request) (files : gset string)
    (props : JS.value) :
  let w := final env req files in
  let w' := final env (withProps props req) files in
  commandsRun w' = commandsRun w /\ reply w' = reply w
  /\ headersSent w' = headersSent w /\ fs w' = fs w /\ steps w' = steps w.
Proof.
  intros w w'. subst w w'.
  assert (invoke env (withProps props req) files = invoke env req files) as Hinvoke by done.
  destruct (JS.truthy (compositionId req)) eqn:H.
  - assert (JS.truthy (compositionId (withProps props req)) = true) as H' by done.
    destruct (JS.toString (compositionId req)) as [text|] eqn:Htext.
    + assert (JS.toString (compositionId (withProps props req)) = Some text) as Htext'
        by done.
      destruct (run_summary env req files text H Htext)
        as (_ & Hsent & Hreply & _ & Hfs & Hsteps).
      destruct (run_summary env (withProps props req) files text H' Htext')
        as (_ & Hsent' & Hreply' & _ & Hfs' & Hsteps').
      rewrite !commands_of_valid_run by done.
      rewrite Hsent, Hsent', Hreply, Hreply', Hfs, Hfs', Hsteps, Hsteps'.
      unfold rendered. by rewrite Hinvoke.
    + assert (JS.toString (compositionId (withProps props req)) = None) as Htext' by done.
      split_and!.
      all: start_stopped H Htext; rewrite ?H', ?Htext'; by reduce.
  - assert (JS.truthy (compositionId (withProps props req)) = false) as H' by done.
    split_and!.
    all: start_stopped H H; rewrite ?H'; by reduce.
Qed.

(** ** The configured paths *)

(** Joining a plain name onto an absolute directory of clean segments appends
    it unchanged. *)
Lemma join_onto_clean_dir (dsegs : list string) (f : string) :
  dsegs <> [] ->
  Forall (fun seg => Path.cleanSegment seg = true /\ Path.whole "/"%char seg) dsegs ->
  Path.plainName f = true ->
  Path.join ["/" +:+ Str.join "/" dsegs; f] = ("/" +:+ Str.join "/" dsegs) +:+ "/" +:+ f.
Proof.
  intros Hne Hd Hplain.
  apply forallb_clean in Hd as [Hdclean Hdwhole].
  assert (f <> EmptyString) as Hf by (by intros ->).
  unfold Path.join, Path.joinArgs. cbn [fold_left].
  rewrite !decide_False by done.
  unfold Path.normalize. rewrite decide_False by done.
  set (D := Str.join "/" dsegs).
  change (("/" +:+ D) +:+ "/" +:+ f) with (String "/"%char (D +:+ String "/"%char f)).
  cbn [Path.isAbsolute]. rewrite bool_decide_eq_true_2 by done. cbn [negb].
  assert (Str.split "/"%char (String "/"%char (D +:+ String "/"%char f))
          = EmptyString :: dsegs ++ Str.split "/"%char f) as Hsplit.
  { rewrite split_cons_sep, split_app_sep. unfold D. by rewrite split_join. }
  assert (Path.normalizeString (String "/"%char (D +:+ String "/"%char f)) false
          = D +:+ String "/"%char f) as ->.
  { unfold Path.normalizeString, Path.normalizeSegments. rewrite Hsplit.
    cbn [fold_left]. change (Path.normalizeStep false [] EmptyString) with (@nil string).
    rewrite fold_normalizeStep_clean.
    - rewrite app_nil_r, rev_involutive.
      rewrite join_app by (done || apply split_nonempty).
      by rewrite (join_split "/"%char f).
    - rewrite forallb_app. by rewrite Hdclean. }
  rewrite decide_False by apply app_sep_nonempty.
  destruct (Str.endsWithChar _ _) eqn:Hend; [|done].
  apply endsWithChar_last in Hend. rewrite Hsplit in Hend.
  exfalso. unfold Path.plainName in Hplain.
  destruct (Str.split "/"%char f) as [|h t] eqn:Hsf using rev_ind;
    [by destruct (split_nonempty "/"%char f)|].
  rewrite app_comm_cons, app_assoc, last_snoc in Hend. injection Hend as ->.
  rewrite forallb_app in Hplain. by apply andb_true_iff in Hplain as [_ Hplain].
Qed.

(** The segments of a normalised absolute path. *)
Lemma split_clean_dir (dsegs : list string) :
  dsegs <> [] ->
  Forall (fun seg => Path.cleanSegment seg = true /\ Path.whole "/"%char seg) dsegs ->
  Str.split "/"%char ("/" +:+ Str.join "/" dsegs) = EmptyString :: dsegs.
Proof.
  intros Hne Hd. apply forallb_clean in Hd as [_ Hw].
  change ("/" +:+ ?r) with (String "/"%char r).
  by rewrite split_cons_sep, split_join.
Qed.

(** X11. Where the server keeps things, when it is installed in a directory
    with a normalised absolute path [/parent.../name]: the output directory is
    the child [output] of that directory, the rendering project is its sibling
    [frontend], and the entry point is [src/remotion/index.js] inside the
    project. *)
Theorem configured_paths (psegs : list string) (name : string) :
  Forall (fun seg => Path.cleanSegment seg = true /\ Path.whole "/"%char seg)
    (psegs ++ [name]) ->
  __dirname = "/" +:+ Str.join "/" (psegs ++ [name]) ->
  outputDir = __dirname +:+ "/output"
  /\ remotionProjectDir = "/" +:+ Str.join "/" (psegs ++ ["frontend"])
  /\ remotionEntryPoint = remotionProjectDir +:+ "/src/remotion/index.js".
Proof.
  intros Hd Hdir.
  assert (psegs ++ [name] <> []) as Hne by (by destruct psegs).
  pose proof (split_clean_dir _ Hne Hd) as Hsplit. rewrite <- Hdir in Hsplit.
  pose proof (forallb_clean _ Hd) as [Hclean _].
  assert (Path.isAbsolute __dirname = true) as Habs by (by rewrite Hdir).
  assert (__dirname <> EmptyString) as Hnonempty by (by rewrite Hdir).
  assert (forall rest,
            Path.resolveLoop cwd [rest; __dirname] EmptyString
            = if decide (rest = EmptyString)
              then (__dirname +:+ "/" +:+ EmptyString, true)
              else if Path.isAbsolute rest then (rest +:+ "/" +:+ EmptyString, true)
              else (__dirname +:+ "/" +:+ rest +:+ "/" +:+ EmptyString, true)) as Hloop.
  { intros rest. cbn [Path.resolveLoop]. case_decide; [by rewrite decide_False, Habs|].
    destruct (Path.isAbsolute rest); [done|]. by rewrite decide_False, Habs. }
  assert (remotionProjectDir = "/" +:+ Str.join "/" (psegs ++ ["frontend"])) as Hproject.
  { unfold remotionProjectDir, Path.resolve. cbn [rev app]. rewrite Hloop.
    rewrite decide_False by done. change (Path.isAbsolute "../frontend") with false.
    cbn iota. cbn [negb]. unfold Path.normalizeString, Path.normalizeSegments.
    change (__dirname +:+ "/" +:+ "../frontend" +:+ "/" +:+ EmptyString)
      with (__dirname +:+ String "/"%char "../frontend/").
    rewrite split_app_sep, Hsplit.
    change (Str.split "/"%char "../frontend/") with [".."; "frontend"; EmptyString].
    rewrite fold_left_app. cbn [fold_left].
    change (Path.normalizeStep false [] EmptyString) with (@nil string).
    rewrite fold_normalizeStep_clean by done. rewrite app_nil_r, rev_app_distr.
    cbn [rev app]. unfold Path.normalizeStep at 3.
    rewrite !decide_False by done. rewrite decide_True by done.
    rewrite decide_False.
    - change (Path.normalizeStep false ?st "frontend") with ("frontend" :: st).
      change (Path.normalizeStep false ?st EmptyString) with st.
      cbn [rev]. by rewrite rev_involutive.
    - apply Forall_app in Hd as [_ Hname]. inversion Hname as [|? ? [Hc _] _]; subst.
      intros ->. done. }
  split_and!; [| done |].
  - unfold outputDir, Path.resolve. cbn [rev app]. rewrite Hloop.
    rewrite decide_False by done. change (Path.isAbsolute "output") with false.
    cbn iota. cbn [negb]. unfold Path.normalizeString, Path.normalizeSegments.
    change (__dirname +:+ "/" +:+ "output" +:+ "/" +:+ EmptyString)
      with (__dirname +:+ String "/"%char "output/").
    rewrite split_app_sep, Hsplit.
    change (Str.split "/"%char "output/") with ["output"; EmptyString].
    rewrite fold_left_app. cbn [fold_left].
    change (Path.normalizeStep false [] EmptyString) with (@nil string).
    rewrite fold_normalizeStep_clean by done. rewrite app_nil_r.
    change (Path.normalizeStep false ?st "output") with ("output" :: st).
    change (Path.normalizeStep false ?st EmptyString) with st.
    cbn [rev]. rewrite rev_involutive, join_app by done.
    rewrite Hdir. by rewrite app_assoc_s.
  - unfold remotionEntryPoint. rewrite Hproject. apply join_onto_clean_dir.
    + by destruct psegs.
    + apply Forall_app in Hd as [Hp _]. apply Forall_app. split; [done|].
      by repeat constructor.
    + done.
Qed.

(** ** The start of the server *)

Lemma dirsBefore_whole (acc s : string) : acc +:+ s ∈ dirsBefore acc s.
Proof.
  revert acc. induction s as [|c s IH]; intros acc.
  - rewrite app_empty_r. apply list_elem_of_here.
  - cbn [dirsBefore]. apply elem_of_app. right.
    specialize (IH (acc +:+ String c EmptyString)).
    by rewrite app_assoc_s in IH.
Qed.

(** X12. Making sure of the output directory.  If the path exists nothing is
    created and nothing is logged, even where creation would be refused.  If
    it does not exist and creation is not refused, the directory exists
    afterwards, every file that was there still is, the creation is logged,
    and a second start finds the directory and changes nothing.  If creation
    is refused the start raises that error and the disk is unchanged. *)
Theorem output_dir_ensured (refused : option string) (files : gset string) :
  let start := ensureOutputDir refused (fresh files) in
  (outputDir ∈ files ->
     start = (Returned tt, mkWorld files false None [EvExistsSync outputDir true]))
  /\ (outputDir ∉ files -> refused = None ->
        fst start = Returned tt
        /\ outputDir ∈ fs (snd start)
        /\ files ⊆ fs (snd start)
        /\ EvConsole LLog ("Created output directory: " +:+ outputDir) []
             ∈ trace (snd start)
        /\ forall refused',
             fs (snd (ensureOutputDir refused' (fresh (fs (snd start)))))
             = fs (snd start))
  /\ (forall msg, outputDir ∉ files -> refused = Some msg ->
        fst start = Thrown (mkError msg None None) /\ fs (snd start) = files).
Proof.
  intros start. subst start.
  unfold ensureOutputDir, fs_mkdirSync, dirsOf. unfold_prims.
  cbn -[String.app outputDir dirsBefore].
  split_and!.
  - intros Hin. by rewrite bool_decide_eq_true_2.
  - intros Hout ->. rewrite bool_decide_eq_false_2 by done.
    cbn -[String.app outputDir dirsBefore].
    assert (outputDir ∈ files ∪ list_to_set (dirsBefore EmptyString outputDir)) as Hmade.
    { apply elem_of_union. right. apply elem_of_list_to_set.
      apply (dirsBefore_whole EmptyString outputDir). }
    split_and!; [done | done | apply union_subseteq_l | in_trace |].
    intros refused'. by rewrite bool_decide_eq_true_2.
  - intros msg Hout ->. by rewrite bool_decide_eq_false_2.
Qed.

(** ** The Invoker and the file names *)


Lemma app_inj_tail (a b c : string) : a +:+ c = b +:+ c -> a = b.
Proof.
  intros H. apply app_inj_length in H as [? _]; [done|].
  apply (f_equal String.length) in H. rewrite !length_app_s in H. lia.
Qed.

(** X14. A file name determines what it was built from: two file names built
    on tokens of [uuid.v4] are equal only if the tokens are equal and the
    compositionIds have the same string form. *)
Theorem uniqueFilename_injective (u1 u2 s1 s2 : string) :
  Uuid.isUuid u1 = true -> Uuid.isUuid u2 = true ->
  uniqueFilename u1 s1 = uniqueFilename u2 s2 ->
  u1 = u2 /\ s1 = s2.
Proof.
  intros H1 H2 Heq. unfold uniqueFilename in Heq.
  apply app_inj_length in Heq as [Hu Hrest].
  - split; [done|]. apply String.app_inj in Hrest. by apply app_inj_tail in Hrest.
  - by rewrite (isUuid_length u1), (isUuid_length u2).
Qed.

End Server.

(** * Concrete runs *)

Example demo_outputDir : outputDir demoDir demoDir = "/srv/backend/output".
Proof. vm_compute. reflexivity. Qed.

Example demo_entryPoint :
  remotionEntryPoint demoDir demoDir = "/srv/frontend/src/remotion/index.js".
Proof. vm_compute. reflexivity. Qed.

Example split_example : Str.split "/"%char "/a//b/" = [""; "a"; ""; "b"; ""].
Proof. reflexivity. Qed.

Example normalize_example : Path.normalize "a/../../b/" = "../b/".
Proof. vm_compute. reflexivity. Qed.

Example join_example :
  Path.join ["/srv/backend/output"; "u-a/./b/../c.mp4"] = "/srv/backend/output/u-a/c.mp4".
Proof. vm_compute. reflexivity. Qed.

Example basename_example :
  Path.basename "a/b-1700000000000.mp4" = "b-1700000000000.mp4"
  /\ Path.basename "intro-1700000000000.mp4" = "intro-1700000000000.mp4"
  /\ Path.basename "a/b//" = "b".
Proof. split_and!; vm_compute; reflexivity. Qed.

Example keepsHead_example :
  Path.keepsHead "u-a//b.mp4" = true
  /\ Path.keepsHead "u-a/b/../c.mp4" = true
  /\ Path.keepsHead "u-a/../b.mp4" = false
  /\ Path.keepsHead "u-/../x.mp4" = false.
Proof. split_and!; vm_compute; reflexivity. Qed.

Example marker_example :
  Str.includes (Str.toLowerCase "An ERRor occurred") "error" = true
  /\ Str.includes (Str.toLowerCase "Rendered 12 frames") "error" = false.
Proof. split; vm_compute; reflexivity. Qed.

Example toString_example :
  JS.toString (Some (JS.JArr [JS.JNum "1"; JS.JNull; JS.JStr "a"])) = Some "1,,a"
  /\ JS.toString (Some (JS.JNum "1e+21")) = Some "1e+21"
  /\ JS.toString (Some (JS.JObj [("title", JS.JStr "Hello")])) = Some "[object Object]"
  /\ JS.toString (Some (JS.JObj [("toString", JS.JNum "1")])) = None
  /\ JS.toString (Some (JS.JArr [JS.JObj [("toString", JS.JNull)]])) = None
  /\ JS.toString None = Some "undefined".
Proof. split_and!; vm_compute; reflexivity. Qed.

Example stringify_example :
  JS.JSON_stringify (JS.JObj [("n", JS.JArr [JS.JNum "-3"; JS.JNull; JS.JBool true])])
  = "{" +:+ Str.dquote +:+ "n" +:+ Str.dquote +:+ ":[-3,null,true]}".
Proof. vm_compute. reflexivity. Qed.

Example escape_example :
  escapedPropsString (Some (JS.JStr "it's"))
  = Str.dquote +:+ "it" +:+ Str.squote +:+ Str.backslash +:+ Str.squote +:+ Str.squote
      +:+ "s" +:+ Str.dquote.
Proof. vm_compute. reflexivity. Qed.

Example demo_tokens : Uuid.isUuid demoToken = true /\ Uuid.isUuid otherToken = true.
Proof. split; vm_compute; reflexivity. Qed.

Example falsy_ids :
  JS.truthy None = false /\ JS.truthy (Some (JS.JStr EmptyString)) = false
  /\ JS.truthy (Some JS.JNull) = false /\ JS.truthy (Some (JS.JNum "0")) = false.
Proof. by split_and!. Qed.

Example overflow_example :
  overflow (mkProc 0 tooLong EmptyString Stderr) = Some Stdout
  /\ overflow (mkProc 1 "frames rendered" "ffmpeg crashed" Stdout) = None
  /\ Str.byteLength tooLong = (maxBuffer + 1)%N.
Proof. split_and!; vm_compute; reflexivity. Qed.

(** The request whose compositionId has no string form: the handler raises
    once the token is drawn, and nothing is written. *)
Example unprintable_run :
  JS.truthy (compositionId unprintableRequest) = true
  /\ run demoDir demoDir goodEnv unprintableRequest ∅
     = (Thrown (mkError "Cannot convert object to primitive value" None None),
        mkWorld ∅ false None [EvUuid demoToken]).
Proof. split; vm_compute; reflexivity. Qed.

(** The stages of the request whose render crashes: the reply comes before
    the deletion has completed. *)
Example crashed_run :
  steps (final demoDir demoDir crashedEnv introRequest ∅)
  = [SRender; SProbe; SReply; SCleanup].
Proof. vm_compute. reflexivity. Qed.

(** C1, as stated, fails: the render and the delivery succeed, the deletion
    is attempted and refused, and the artifact is still in the output
    directory when the request has completed. *)
Lemma artifact_remains_when_unlink_refused :
  JS.truthy (compositionId introRequest) = true
  /\ fst (invoke demoDir demoDir refusedEnv introRequest ∅) = Returned true
  /\ reply (final demoDir demoDir refusedEnv introRequest ∅)
     = Some (FileReply introPath "intro-1700000000000.mp4" true)
  /\ EvUnlink introPath (Some "EPERM") ∈ trace (final demoDir demoDir refusedEnv introRequest ∅)
  /\ internalPath demoDir demoDir refusedEnv introRequest = introPath
  /\ introPath ∈ fs (final demoDir demoDir refusedEnv introRequest ∅).
Proof.
  split_and!; try (vm_compute; reflexivity).
  vm_compute. in_trace.
Qed.

Lemma cleanup_on_every_exit_witness :
  JS.truthy (compositionId introRequest) = true
  /\ JS.toString (compositionId introRequest) = Some "intro"
  /\ introPath ∉ fs (final demoDir demoDir goodEnv introRequest ∅).
Proof.
  split_and!; [reflexivity | reflexivity |].
  pose proof (cleanup_on_every_exit demoDir demoDir goodEnv introRequest ∅ "intro"
                eq_refl eq_refl)
    as (_ & _ & _ & _ & _ & Hgone).
  exact (Hgone eq_refl).
Defined.

(** C2, at the failing input: the input properties serialise to a JSON text,
    but the one command the handler runs is the render command without
    them. *)
Theorem props_never_reach_the_engine :
  propsString introProps
    = "{" +:+ Str.dquote +:+ "title" +:+ Str.dquote +:+ ":" +:+ Str.dquote +:+ "Hello"
        +:+ Str.dquote +:+ "}"
  /\ escapedPropsString introProps = propsString introProps
  /\ commandsRun (final demoDir demoDir goodEnv introRequest ∅)
     = ["npx remotion render " +:+ Str.dquote +:+ "/srv/frontend/src/remotion/index.js"
          +:+ Str.dquote +:+ " intro " +:+ Str.dquote +:+ introPath +:+ Str.dquote]
  /\ Str.includes (command demoDir demoDir goodEnv introRequest)
       (escapedPropsString introProps) = false
  /\ Str.includes (command demoDir demoDir goodEnv introRequest) "Hello" = false
  /\ command demoDir demoDir goodEnv (withProps None introRequest)
     = command demoDir demoDir goodEnv introRequest.
Proof. split_and!; vm_compute; reflexivity. Qed.

(** C3, as stated, fails: the engine ends with status zero and its error
    channel holds no marker word, only more progress text than [exec] keeps;
    the Invoker fails, and the caller is told of a render failure. *)
Lemma quiet_overflow_is_a_failure :
  exitCode (fst (engine demoDir demoDir chattyEnv introRequest ∅)) = 0
  /\ Str.includes
       (Str.toLowerCase (stderr (fst (engine demoDir demoDir chattyEnv introRequest ∅))))
       "error" = false
  /\ raised (fst (invoke demoDir demoDir chattyEnv introRequest ∅))
     = Some "stderr maxBuffer length exceeded"
  /\ reply (final demoDir demoDir chattyEnv introRequest ∅)
     = Some (JsonReply 500 (renderFailedBody "stderr maxBuffer length exceeded")).
Proof. split_and!; vm_compute; reflexivity. Qed.

Lemma invalid_request_rejected_witness :
  JS.truthy (compositionId emptyIdRequest) = false
  /\ fs (final demoDir demoDir goodEnv emptyIdRequest ∅) = ∅.
Proof.
  split; [reflexivity|]. unfold final.
  by rewrite (invalid_request_rejected demoDir demoDir goodEnv emptyIdRequest ∅ eq_refl).
Defined.

(** C5, as stated, fails twice.  The engine ends with status 1 and leaves a
    partial file, the caller gets the 500 reply, the deletion is refused and
    the partial file remains.  And the engine ends with status 1 after more
    progress text than [exec] keeps: the 500 reply tells of the overflow and
    holds nothing of the error channel. *)
Lemma crash_report_falls_short :
  (exitCode (fst (engine demoDir demoDir crashedRefusedEnv introRequest ∅)) = 1
   /\ reply (final demoDir demoDir crashedRefusedEnv introRequest ∅)
      = Some (JsonReply 500
                (renderFailedBody
                   ("Command failed: " +:+ command demoDir demoDir crashedRefusedEnv introRequest
                      +:+ Str.newline +:+ "ffmpeg crashed")))
   /\ EvUnlink introPath (Some "EBUSY")
        ∈ trace (final demoDir demoDir crashedRefusedEnv introRequest ∅)
   /\ internalPath demoDir demoDir crashedRefusedEnv introRequest = introPath
   /\ introPath ∈ fs (final demoDir demoDir crashedRefusedEnv introRequest ∅))
  /\ (exitCode (fst (engine demoDir demoDir crashedVerboseEnv introRequest ∅)) = 1
      /\ stderr (fst (engine demoDir demoDir crashedVerboseEnv introRequest ∅))
         = "ffmpeg crashed"
      /\ reply (final demoDir demoDir crashedVerboseEnv introRequest ∅)
         = Some (JsonReply 500 (renderFailedBody "stdout maxBuffer length exceeded"))
      /\ Str.includes "stdout maxBuffer length exceeded" "ffmpeg crashed" = false).
Proof.
  split; split_and!; try (vm_compute; reflexivity).
  vm_compute. in_trace.
Qed.

Lemma engine_failure_reported_witness :
  JS.truthy (compositionId introRequest) = true
  /\ reachesShell demoDir demoDir crashedEnv introRequest = true
  /\ exitCode (fst (engine demoDir demoDir crashedEnv introRequest ∅)) <> 0
  /\ introPath ∉ fs (final demoDir demoDir crashedEnv introRequest ∅).
Proof.
  assert (exitCode (fst (engine demoDir demoDir crashedEnv introRequest ∅)) <> 0) as Hexit
    by (vm_compute; discriminate).
  split_and!; [reflexivity | reflexivity | exact Hexit |].
  pose proof (engine_failure_reported demoDir demoDir crashedEnv introRequest ∅
                eq_refl eq_refl Hexit)
    as (_ & _ & _ & Hgone).
  exact (Hgone eq_refl).
Defined.

(** C6, as stated, fails: two requests with different tokens, the same
    compositionId and different inputProps are given one and the same
    internalPath. *)
Lemma paths_collide_under_traversal :
  Uuid.isUuid (uuid goodEnv) = true
  /\ Uuid.isUuid (uuid otherEnv) = true
  /\ uuid goodEnv <> uuid otherEnv
  /\ traversalRequest "Hello" <> traversalRequest "Bye"
  /\ internalPath demoDir demoDir goodEnv (traversalRequest "Hello")
     = "/srv/backend/output/x.mp4"
  /\ internalPath demoDir demoDir otherEnv (traversalRequest "Bye")
     = "/srv/backend/output/x.mp4".
Proof. split_and!; try (vm_compute; reflexivity); discriminate. Qed.

(** The amended C6 at an identifier with an empty segment. *)
Lemma distinct_paths_when_token_kept_witness :
  Path.isAbsolute demoDir = true
  /\ Uuid.isUuid (uuid goodEnv) = true
  /\ Uuid.isUuid (uuid otherEnv) = true
  /\ uuid goodEnv <> uuid otherEnv
  /\ Path.keepsHead (uniqueFilename (uuid goodEnv) (idText doubledRequest)) = true
  /\ Path.keepsHead (uniqueFilename (uuid otherEnv) (idText doubledRequest)) = true
  /\ internalPath demoDir demoDir goodEnv doubledRequest
     <> internalPath demoDir demoDir otherEnv doubledRequest.
Proof.
  assert (uuid goodEnv <> uuid otherEnv) as Hne by discriminate.
  split_and!; try reflexivity; [exact Hne|].
  pose proof (distinct_paths_when_token_kept demoDir demoDir goodEnv otherEnv
                doubledRequest doubledRequest eq_refl eq_refl eq_refl Hne eq_refl eq_refl)
    as (_ & _ & _ & Hdiff & _).
  exact Hdiff.
Defined.

Lemma delivery_failure_handling_witness :
  JS.truthy (compositionId introRequest) = true
  /\ fst (invoke demoDir demoDir brokenEnv introRequest ∅) = Returned true
  /\ reply (final demoDir demoDir brokenEnv introRequest ∅)
     = Some (FileReply (internalPath demoDir demoDir brokenEnv introRequest)
               (Path.basename (deliveryName brokenEnv introRequest)) false).
Proof.
  split_and!; [reflexivity | reflexivity |].
  pose proof (delivery_failure_handling demoDir demoDir brokenEnv introRequest ∅
                eq_refl eq_refl) as [_ Hsent].
  refine (proj1 (proj2 (proj2 (Hsent "EPIPE" _ eq_refl)))).
  vm_compute. reflexivity.
Defined.

(** C8, as stated, fails: for the compositionId a/b the render succeeds and
    the file is sent, but the name the caller is offered is not the one made
    of the compositionId and the timestamp: its first segment is gone. *)
Lemma nested_id_offered_under_last_segment :
  JS.toString (compositionId nestedRequest) = Some "a/b"
  /\ fst (invoke demoDir demoDir nestedEnv nestedRequest ∅) = Returned true
  /\ internalPath demoDir demoDir nestedEnv nestedRequest = nestedPath
  /\ deliveryName nestedEnv nestedRequest = "a/b-1700000000000.mp4"
  /\ reply (final demoDir demoDir nestedEnv nestedRequest ∅)
     = Some (FileReply nestedPath "b-1700000000000.mp4" true).
Proof. split_and!; vm_compute; reflexivity. Qed.

Lemma delivery_name_presentation_witness :
  JS.truthy (compositionId introRequest) = true
  /\ JS.toString (compositionId introRequest) = Some "intro"
  /\ fst (invoke demoDir demoDir goodEnv introRequest ∅) = Returned true
  /\ Path.basename ("intro" +:+ "-" +:+ pretty (clock goodEnv) +:+ ".mp4")
     = "intro" +:+ "-" +:+ pretty (clock goodEnv) +:+ ".mp4".
Proof.
  split_and!; [reflexivity | reflexivity | reflexivity |].
  pose proof (delivery_name_presentation demoDir demoDir goodEnv introRequest ∅ "intro"
                eq_refl eq_refl eq_refl) as (_ & _ & _ & Hwhole & _).
  apply Hwhole. reflexivity.
Defined.



(** C10, as stated, fails: the engine ends with status zero, prints no
    marker word and writes no file, after more progress text than [exec]
    keeps; the Invoker does not report success, and the caller is told of a
    render failure, not of a delivery error. *)
Lemma verbose_run_is_a_render_failure :
  exitCode (fst (engine demoDir demoDir verboseEnv introRequest ∅)) = 0
  /\ stderr (fst (engine demoDir demoDir verboseEnv introRequest ∅)) = EmptyString
  /\ snd (engine demoDir demoDir verboseEnv introRequest ∅) = ∅
  /\ raised (fst (invoke demoDir demoDir verboseEnv introRequest ∅))
     = Some "stdout maxBuffer length exceeded"
  /\ reply (final demoDir demoDir verboseEnv introRequest ∅)
     = Some (JsonReply 500 (renderFailedBody "stdout maxBuffer length exceeded"))
  /\ steps (final demoDir demoDir verboseEnv introRequest ∅) = [SRender; SProbe; SReply].
Proof. split_and!; vm_compute; reflexivity. Qed.

Lemma missing_output_surfaces_at_delivery_witness :
  JS.truthy (compositionId introRequest) = true
  /\ withinExec demoDir demoDir silentEnv introRequest ∅ = true
  /\ exitCode (fst (engine demoDir demoDir silentEnv introRequest ∅)) = 0
  /\ Str.includes
       (Str.toLowerCase (stderr (fst (engine demoDir demoDir silentEnv introRequest ∅))))
       "error" = false
  /\ (internalPath demoDir demoDir silentEnv introRequest
        ∉ snd (engine demoDir demoDir silentEnv introRequest ∅))
  /\ reply (final demoDir demoDir silentEnv introRequest ∅)
     = Some (JsonReply 500 (msgBody "Error sending the rendered file.")).
Proof.
  assert (internalPath demoDir demoDir silentEnv introRequest
            ∉ snd (engine demoDir demoDir silentEnv introRequest ∅)) as Hout
    by (vm_compute; discriminate).
  split_and!; [reflexivity | reflexivity | reflexivity | reflexivity | exact Hout |].
  exact (proj1 (proj2 (proj2 (proj2 (missing_output_surfaces_at_delivery demoDir demoDir
                                       silentEnv introRequest ∅ eq_refl eq_refl eq_refl
                                       eq_refl Hout))))).
Defined.

(** * Concrete runs of the further properties *)

Example dirsOf_example :
  dirsOf "/srv/backend/output" = ["/srv"; "/srv/backend"; "/srv/backend/output"].
Proof. vm_compute. reflexivity. Qed.

Example readWord_example :
  Sh.readWord false
    (Sh.singleQuoted (escapedPropsString (Some (JS.JObj [("t", JS.JStr "it's")]))))
  = Some ("{" +:+ Str.dquote +:+ "t" +:+ Str.dquote +:+ ":" +:+ Str.dquote +:+ "it's"
            +:+ Str.dquote +:+ "}").
Proof. vm_compute. reflexivity. Qed.

Example startup_example :
  fst (ensureOutputDir demoDir demoDir None (fresh ∅)) = Returned tt
  /\ "/srv/backend/output" ∈ fs (snd (ensureOutputDir demoDir demoDir None (fresh ∅)))
  /\ "/srv/backend" ∈ fs (snd (ensureOutputDir demoDir demoDir None (fresh ∅)))
  /\ size (fs (snd (ensureOutputDir demoDir demoDir None (fresh ∅)))) = 3%nat.
Proof. split_and!; vm_compute; reflexivity. Qed.

Lemma falsy_props_serialise_as_empty_object_witness :
  JS.truthy (Some (JS.JStr EmptyString)) = false
  /\ escapedPropsString (Some (JS.JStr EmptyString)) = "{}".
Proof.
  split; [reflexivity|].
  exact (proj2 (falsy_props_serialise_as_empty_object (Some (JS.JStr EmptyString)) eq_refl)).
Defined.



Lemma successful_delivery_witness :
  JS.truthy (compositionId introRequest) = true
  /\ fst (invoke demoDir demoDir goodEnv introRequest ∅) = Returned true
  /\ internalPath demoDir demoDir goodEnv introRequest
       ∈ rendered demoDir demoDir goodEnv introRequest ∅
  /\ transport goodEnv = Delivered
  /\ reply (final demoDir demoDir goodEnv introRequest ∅)
     = Some (FileReply (internalPath demoDir demoDir goodEnv introRequest)
               (Path.basename (deliveryName goodEnv introRequest)) true).
Proof.
  assert (internalPath demoDir demoDir goodEnv introRequest
            ∈ rendered demoDir demoDir goodEnv introRequest ∅) as Hleft
    by (vm_compute; reflexivity).
  split_and!; [reflexivity | reflexivity | exact Hleft | reflexivity |].
  exact (proj1 (proj2 (successful_delivery demoDir demoDir goodEnv introRequest ∅
                         eq_refl eq_refl Hleft eq_refl))).
Defined.

Lemma stdout_is_not_consulted_witness :
  (Str.byteLength (stdout (fst (engine demoDir demoDir goodEnv introRequest ∅)))
     <=? maxBuffer)%N = true
  /\ (Str.byteLength "quiet" <=? maxBuffer)%N = true
  /\ reply (final demoDir demoDir (withStdout (fun _ => "quiet") goodEnv) introRequest ∅)
     = reply (final demoDir demoDir goodEnv introRequest ∅).
Proof.
  split_and!; [reflexivity | reflexivity |].
  exact (proj1 (stdout_is_not_consulted demoDir demoDir goodEnv introRequest ∅
                  (fun _ => "quiet") eq_refl eq_refl)).
Defined.

Lemma configured_paths_witness :
  Forall (fun seg => Path.cleanSegment seg = true /\ Path.whole "/"%char seg)
    (["srv"] ++ ["backend"])
  /\ demoDir = "/" +:+ Str.join "/" (["srv"] ++ ["backend"])
  /\ outputDir demoDir demoDir = demoDir +:+ "/output".
Proof.
  assert (Forall (fun seg => Path.cleanSegment seg = true /\ Path.whole "/"%char seg)
            (["srv"] ++ ["backend"])) as Hsegs by (repeat constructor).
  split_and!; [exact Hsegs | reflexivity |].
  exact (proj1 (configured_paths demoDir demoDir ["srv"] "backend" Hsegs eq_refl)).
Defined.

Lemma uniqueFilename_injective_witness :
  Uuid.isUuid demoToken = true
  /\ uniqueFilename demoToken "7" = uniqueFilename demoToken (Str.sliceTo 1 "70")
  /\ "7" = Str.sliceTo 1 "70".
Proof.
  split_and!; [reflexivity | reflexivity |].
  exact (proj2 (uniqueFilename_injective demoToken demoToken "7" (Str.sliceTo 1 "70")
                  eq_refl eq_refl eq_refl)).
Defined.
